(** * ONNX news-classification service: a shallow embedding

    The development follows [onnx/news-classification-gpu/news-classification-gpu.ipynb]:
    the helper functions and the [OnnxService] class written to [bento_svc.py],
    and the order of the notebook's cells.  Objects supplied by torchtext,
    onnxruntime and BentoML (tokenizer, vocabulary, inference session) are
    fields of an [Artifacts] record: functions of their arguments that return
    a value or raise.  Every call on them and every printed line is recorded
    in a trace; the service object is threaded through the methods. *)

From stdpp Require Import base option list strings gmap.
From Stdlib Require Import ZArith QArith Lia Ascii.

Open Scope string_scope.
Open Scope list_scope.
Open Scope Z_scope.

(** ** Python exceptions *)

Inductive exc_class :=
  | RuntimeError | NotImplementedError | RecursionError
  | InvalidArgument | Fail
  | ValueError | IndexError | KeyError | AttributeError | TypeError.

#[global] Instance exc_class_eq_dec : EqDecision exc_class.
Proof. solve_decision. Defined.

Record exn := Exn { exn_class : exc_class; exn_msg : string }.

#[global] Instance exn_eq_dec : EqDecision exn.
Proof. solve_decision. Defined.

(** [issubclass c d]: the builtin hierarchy below [RuntimeError]; the
    onnxruntime exceptions derive from [Exception] directly. *)
Definition issubclass (c d : exc_class) : bool :=
  match d, c with
  | RuntimeError, (RuntimeError | NotImplementedError | RecursionError) => true
  | _, _ => bool_decide (c = d)
  end.

(** [except (c1, ..., cn)] matches an instance of a subclass of some [ci]. *)
Definition isinstance (e : exn) (classes : list exc_class) : bool :=
  existsb (issubclass (exn_class e)) classes.

Inductive result (A : Type) :=
  | Ok (a : A)
  | Raise (e : exn).
Arguments Ok {A} a.
Arguments Raise {A} e.

Definition result_bind {A B} (r : result A) (f : A → result B) : result B :=
  match r with
  | Ok a => f a
  | Raise e => Raise e
  end.

(** ** Parsed JSON bodies, as [JsonInput] hands them to the API function *)

#[warnings="-register-all"]
Inductive json :=
  | JNull
  | JBool (b : bool)
  | JNum (q : Q)
  | JStr (s : string)
  | JArr (l : list json)
  | JObj (m : gmap string json).

(** [d.get(key)]: the value, [None] when the key is absent; only a dict has
    the method. *)
Definition dict_get (d : json) (key : string) : result json :=
  match d with
  | JObj m => Ok (default JNull (m !! key))
  | _ => Raise (Exn AttributeError "object has no attribute 'get'")
  end.

(** A dict key or a method's return value that is an int or [None]:
    [Some i] is the int [i], [None] is Python's [None]. *)
Abbreviation int_or_None := (option Z).

(** [d[k]]: a key that is not in the dict is a [KeyError]. *)
Definition dict_getitem (d : gmap int_or_None string) (k : int_or_None) : result string :=
  match d !! k with
  | Some v => Ok v
  | None => Raise (Exn KeyError (if k is Some _ then "int" else "None"))
  end.

(** [l[0]] *)
Definition index0 {A} (l : list A) : result A :=
  match l with
  | x :: _ => Ok x
  | [] => Raise (Exn IndexError "list index out of range")
  end.

(** ** Tensors and arrays *)

Inductive Device := cpu_device | cuda_device (index : nat).

(** The dtypes of a tensor. *)
Inductive dtype :=
  | float16 | float32 | float64 | bfloat16
  | complex32 | complex64 | complex128
  | uint8 | int8 | int16 | int32 | int64 | torch_bool
  | qint8 | quint8 | qint32.

(** The dtypes that have a numpy counterpart: not bfloat16, not complex32,
    not the quantized dtypes. *)
Definition numpy_dtype (d : dtype) : bool :=
  match d with
  | bfloat16 | complex32 | qint8 | quint8 | qint32 => false
  | _ => true
  end.

#[global] Instance Device_eq_dec : EqDecision Device.
Proof. solve_decision. Defined.
#[global] Instance dtype_eq_dec : EqDecision dtype.
Proof. solve_decision. Defined.

(** A tensor of strided layout: its elements in row-major order. *)
Record Tensor (A : Type) := mkTensor {
  t_dtype : dtype;
  t_shape : list nat;
  t_data : list A;
  t_device : Device;
  requires_grad : bool
}.
Arguments mkTensor {A}.
Arguments t_dtype {A}.
Arguments t_shape {A}.
Arguments t_data {A}.
Arguments t_device {A}.
Arguments requires_grad {A}.

Record ndarray (A : Type) := mkArray {
  a_dtype : dtype;
  shape : list nat;
  a_data : list A
}.
Arguments mkArray {A}.
Arguments a_dtype {A}.
Arguments shape {A}.
Arguments a_data {A}.

#[global] Instance ndarray_eq_dec `{EqDecision A} : EqDecision (ndarray A).
Proof. solve_decision. Defined.

Definition in_int64 (i : Z) : bool :=
  (- 2 ^ 63 <=? i) && (i <? 2 ^ 63).

(** [torch.tensor(l)] for a list of Python ints: a one-dimensional CPU tensor
    that does not require gradients; of dtype int64, or float32 (the default
    dtype) when the list is empty; an int outside the int64 range is refused. *)
Definition torch_tensor (l : list Z) : result (Tensor Z) :=
  if forallb in_int64 l then
    Ok (mkTensor (if l is [] then float32 else int64) [length l] l cpu_device false)
  else Raise (Exn RuntimeError "Overflow when unpacking long").

(** [t.to(device)] *)
Definition to {A} (d : Device) (t : Tensor A) : Tensor A :=
  mkTensor (t_dtype t) (t_shape t) (t_data t) d (requires_grad t).

(** [t.detach()]: the same values, cut from the graph. *)
Definition detach {A} (t : Tensor A) : Tensor A :=
  mkTensor (t_dtype t) (t_shape t) (t_data t) (t_device t) false.

(** [t.cpu()] *)
Definition cpu {A} (t : Tensor A) : Tensor A := to cpu_device t.

(** [t.clone()]: a copy that stays in the graph of [t]. *)
Definition clone {A} (t : Tensor A) : Tensor A :=
  mkTensor (t_dtype t) (t_shape t) (t_data t) (t_device t) (requires_grad t).

(** [t.numpy()]: refused on a tensor that requires gradients, on a tensor
    that is not in host memory, and on a tensor of a dtype that numpy does
    not have. *)
Definition numpy {A} (t : Tensor A) : result (ndarray A) :=
  if requires_grad t then
    Raise (Exn RuntimeError "Can't call numpy() on Tensor that requires grad")
  else if bool_decide (t_device t = cpu_device) then
    if numpy_dtype (t_dtype t) then
      Ok (mkArray (t_dtype t) (t_shape t) (t_data t))
    else Raise (Exn TypeError "Got unsupported ScalarType")
  else Raise (Exn TypeError "can't convert cuda device type tensor to numpy").

(** [to_numpy] of [bento_svc.py]. *)
Definition to_numpy {A} (tensor : Tensor A) : result (ndarray A) :=
  if requires_grad tensor then numpy (clone (cpu (detach tensor)))
  else numpy (clone (cpu tensor)).

(** ** Scores and [argmax] *)

(** What [argmax] needs of the output's floating-point scores: the
    comparison [<=] and the NaN test. *)
Class Float (F : Type) := {
  float_le : F → F → bool;
  float_isnan : F → bool
}.

(** The comparison orders the scores that are not NaN. *)
Class FloatOrder (F : Type) `{Float F} : Prop := {
  float_le_total x y :
    float_isnan x = false → float_isnan y = false →
    float_le x y = true ∨ float_le y x = true;
  float_le_trans x y z :
    float_le x y = true → float_le y z = true → float_le x z = true
}.

(** A two-dimensional array, as its list of rows. *)
Abbreviation matrix F := (list (list F)).

Record NodeArg := mkNodeArg { name : string; type : string }.

Section Service.
Context {F : Type} `{Float F}.

(** The scan of numpy's [argmax] over one row: [mp] is the running maximum,
    [max_ind] its position, [i] the position of the head of [ip].  A later
    element replaces the maximum unless it is [<=] to it; a NaN ends the scan. *)
Fixpoint argmax_scan (mp : F) (max_ind i : nat) (ip : list F) : nat :=
  match ip with
  | [] => max_ind
  | x :: ip' =>
      if negb (float_le x mp) then
        if float_isnan x then i else argmax_scan x i (S i) ip'
      else argmax_scan mp max_ind (S i) ip'
  end.

Definition argmax_row (row : list F) : result nat :=
  match row with
  | [] => Raise (Exn ValueError "attempt to get argmax of an empty sequence")
  | x :: ip => Ok (if float_isnan x then 0%nat else argmax_scan x 0 1 ip)
  end.

Fixpoint argmax_rows (r : matrix F) : result (list nat) :=
  match r with
  | [] => Ok []
  | row :: rows =>
      result_bind (argmax_row row) (λ i,
      result_bind (argmax_rows rows) (λ js, Ok (i :: js)))
  end.

(** [r.argmax(1)] on a two-dimensional array: the position of the maximum
    of every row. *)
Definition argmax1 (r : matrix F) : result (list nat) := argmax_rows r.

(** [a.item()]: the single element of an array of size one. *)
Definition item (a : list nat) : result Z :=
  match a with
  | [i] => Ok (Z.of_nat i)
  | _ => Raise (Exn ValueError "can only convert an array of size 1 to a Python scalar")
  end.

(** *** The packed artifacts *)

(** [onnxruntime.InferenceSession], by the four methods the service calls. *)
Record InferenceSession := mkSession {
  get_inputs : result (list NodeArg);
  get_outputs : result (list NodeArg);
  get_providers : result (list string);
  run : list string → gmap string (ndarray Z) → result (list (matrix F))
}.

(** [self.artifacts]: the session, the tokenizer (a callable on the request's
    sentence) and the vocabulary (indexed by token). *)
Record Artifacts := mkArtifacts {
  model : InferenceSession;
  tokenizer : json → result (list string);
  vocab : string → result Z
}.

Record OnnxService := mkService {
  artifacts : Artifacts;
  news_label : option (gmap int_or_None string)
}.

(** *** Standard output and calls on the artifacts, in order *)

Inductive output :=
  | SetupPipeline
  | Providers (providers : list string)
  | ErrorWithShape (shp : list nat) (e : exn).

Inductive event :=
  | EPrint (o : output)
  | ETokenizer (x : json) (r : result (list string))
  | EVocab (token : string) (r : result Z)
  | EGetInputs (r : result (list NodeArg))
  | EGetOutputs (r : result (list NodeArg))
  | EGetProviders (r : result (list string))
  | ERun (output_names : list string) (input_feed : gmap string (ndarray Z))
         (r : result (list (matrix F))).

(** *** The monad of the service's methods: the object [self] is threaded,
    events are appended, an exception ends the computation. *)

Definition M (A : Type) : Type :=
  OnnxService → list event * OnnxService * result A.

Definition ret {A} (a : A) : M A := λ self, ([], self, Ok a).

Definition raise {A} (e : exn) : M A := λ self, ([], self, Raise e).

Definition bind {A B} (m : M A) (f : A → M B) : M B := λ self,
  match m self with
  | (t, self', Ok a) =>
      let '(t', self'', r) := f a self' in (t ++ t', self'', r)
  | (t, self', Raise e) => (t, self', Raise e)
  end.

Definition lift {A} (r : result A) : M A := λ self, ([], self, r).

Definition print (o : output) : M unit := λ self, ([EPrint o], self, Ok tt).

(** [self.attr]: an attribute that was never assigned is an [AttributeError]. *)
Definition getattr {A} (attr : OnnxService → option A) (attr_name : string) : M A :=
  λ self, ([], self,
           match attr self with
           | Some v => Ok v
           | None => Raise (Exn AttributeError attr_name)
           end).

Definition setattr (upd : OnnxService → OnnxService) : M unit :=
  λ self, ([], upd self, Ok tt).

(** A call on an artifact: evaluated on the current [self.artifacts] and
    recorded with its outcome. *)
Definition call {A} (f : Artifacts → result A) (ev : result A → event) : M A :=
  λ self, let r := f (artifacts self) in ([ev r], self, r).

(** [try: body except classes as e: handler e] *)
Definition try_except {A} (body : M A) (classes : list exc_class)
    (handler : exn → M A) : M A := λ self,
  match body self with
  | (t, self', Raise e) =>
      if isinstance e classes then
        let '(t', self'', r) := handler e self' in (t ++ t', self'', r)
      else (t, self', Raise e)
  | done => done
  end.

Notation "x <- m ;; f" := (bind m (λ x, f))
  (at level 100, m at next level, right associativity, only parsing).
Notation "m ;;; f" := (bind m (λ _, f))
  (at level 100, f at level 200, right associativity, only parsing).

(** [self.artifacts.tokenizer(x)] and [self.artifacts.vocab[token]] *)
Definition artifacts_tokenizer (x : json) : M (list string) :=
  call (λ a, tokenizer a x) (ETokenizer x).

Definition artifacts_vocab (token : string) : M Z :=
  call (λ a, vocab a token) (EVocab token).

(** [[f(x) for x in l]] *)
Fixpoint for_list {A B} (f : A → M B) (l : list A) : M (list B) :=
  match l with
  | [] => ret []
  | x :: l' => y <- f x;; ys <- for_list f l';; ret (y :: ys)
  end.

(** *** [bento_svc.py] *)

(** [get_pipeline(tokenizer, vocab)]; [label_pipeline] is [int(x) - 1], on
    the integer labels of the dataset. *)
Definition get_pipeline (tokenizer : json → M (list string)) (vocab : string → M Z)
    : M ((json → M (list Z)) * (Z → Z)) :=
  print SetupPipeline;;;
  let text_pipeline := λ x, tokens <- tokenizer x;; for_list vocab tokens in
  let label_pipeline := λ x : Z, x - 1 in
  ret (text_pipeline, label_pipeline).

(** [OnnxService.__init__] *)
Definition __init__ : M unit :=
  setattr (λ self, mkService (artifacts self)
    (Some {[ Some 1 := "World"; Some 2 := "Sports";
             Some 3 := "Business"; Some 4 := "Sci/Tec" ]})).

(** [OnnxService.classify_categories]; [device] is the module's global. *)
Definition classify_categories (device : Device) (sentence : json) : M int_or_None :=
  p <- get_pipeline artifacts_tokenizer artifacts_vocab;;
  let text_pipeline := p.1 in
  ids <- text_pipeline sentence;;
  tensor <- lift (torch_tensor ids);;
  text <- lift (to_numpy (to device tensor));;
  inputs <- call (λ a, get_inputs (model a)) EGetInputs;;
  input0 <- lift (index0 inputs);;
  let tensor_name := name input0 in
  outputs <- call (λ a, get_outputs (model a)) EGetOutputs;;
  output0 <- lift (index0 outputs);;
  let output_name := name output0 in
  let onnx_inputs : gmap string (ndarray Z) := {[ tensor_name := text ]} in
  providers <- call (λ a, get_providers (model a)) EGetProviders;;
  print (Providers providers);;;
  try_except
    (outs <- call (λ a, run (model a) [output_name] onnx_inputs)
                  (ERun [output_name] onnx_inputs);;
     r <- lift (index0 outs);;
     am <- lift (argmax1 r);;
     i <- lift (item am);;
     ret (Some (i + 1)))
    [RuntimeError; InvalidArgument]
    (λ e,
      match onnx_inputs !! tensor_name with
      | Some a => print (ErrorWithShape (shape a) e);;; ret None
      | None => raise (Exn KeyError tensor_name)
      end).

(** [OnnxService.predict] *)
Definition predict (device : Device) (parsed_json : json) : M json :=
  sentence <- lift (dict_get parsed_json "text");;
  labels <- getattr news_label "news_label";;
  category <- classify_categories device sentence;;
  label <- lift (dict_getitem labels category);;
  ret (JObj {[ "categories" := JStr label ]}).

End Service.

Arguments InferenceSession F : clear implicits.
Arguments Artifacts F : clear implicits.
Arguments OnnxService F : clear implicits.
Arguments event F : clear implicits.
Arguments M F A : clear implicits.

(** ** Observations on one run of a method *)

Section Observations.
Context {F : Type} `{Float F}.

Definition trace {A} (o : list (event F) * OnnxService F * result A) : list (event F) := o.1.1.
Definition final {A} (o : list (event F) * OnnxService F * result A) : OnnxService F := o.1.2.
Definition outcome {A} (o : list (event F) * OnnxService F * result A) : result A := o.2.

(** The vocabulary look-ups of a list comprehension over [toks], as far as
    they go: the events, and the list of indices when none raises. *)
Fixpoint lookup_events (v : string → result Z) (toks : list string) : list (event F) :=
  match toks with
  | [] => []
  | t :: toks' =>
      EVocab t (v t) :: (if v t is Ok _ then lookup_events v toks' else [])
  end.

Fixpoint lookup_all (v : string → result Z) (toks : list string) : result (list Z) :=
  match toks with
  | [] => Ok []
  | t :: toks' =>
      result_bind (v t) (λ i, result_bind (lookup_all v toks') (λ js, Ok (i :: js)))
  end.

(** A method that leaves the object as it found it. *)
Definition read_only {A} (m : M F A) : Prop := ∀ self, final (m self) = self.

(** The events of the trace that are calls of the session's [run]. *)
Definition is_run (ev : event F) : bool :=
  if ev is ERun _ _ _ then true else false.

(** The events that write the error line of the [except] block. *)
Definition is_error_line (ev : event F) : bool :=
  if ev is EPrint (ErrorWithShape _ _) then true else false.

Definition run_calls (t : list (event F)) : list (event F) := List.filter is_run t.
Definition error_lines (t : list (event F)) : list (event F) := List.filter is_error_line t.

(** The array the session is run on, for the indices [ids]. *)
Definition session_input (ids : list Z) : ndarray Z :=
  mkArray (if ids is [] then float32 else int64) [length ids] ids.

(** Every call on the artifacts succeeds for [sentence]: the tokens, their
    indices, the session's first input and output, and an output of one row. *)
Record Classifies (a : Artifacts F) (sentence : json) (toks : list string)
    (ids : list Z) (inputs outputs : list NodeArg) (inp out : NodeArg)
    (provs : list string) (row : list F) (outs : list (matrix F)) : Prop := {
  cl_tokens : tokenizer a sentence = Ok toks;
  cl_ids : Forall2 (λ t i, vocab a t = Ok i) toks ids;
  cl_int64 : forallb in_int64 ids = true;
  cl_inputs : get_inputs (model a) = Ok inputs;
  cl_input0 : index0 inputs = Ok inp;
  cl_outputs : get_outputs (model a) = Ok outputs;
  cl_output0 : index0 outputs = Ok out;
  cl_providers : get_providers (model a) = Ok provs;
  cl_run : run (model a) [name out] {[ name inp := session_input ids ]} = Ok outs;
  cl_row : index0 outs = Ok [row]
}.

End Observations.

(** The label table and the four categories, as the interface names them. *)
Definition label_table : gmap int_or_None string :=
  {[ Some 1 := "World"; Some 2 := "Sports"; Some 3 := "Business"; Some 4 := "Sci/Tec" ]}.

Definition categories : list string := ["World"; "Sports"; "Business"; "Sci/Tec"].

(** [{'categories': c}] *)
Definition categories_response (c : string) : json :=
  JObj {[ "categories" := JStr c ]}.

(** ** The notebook's code cells *)

Module Notebook.

Inductive step :=
  | ReloadAutoreload
  | PipInstall
  | CopyModelDir
  | ImportLibraries
  | DefineModelAndHelpers
  | WriteBentoSvc
  | ImportOnnxService
  | GetTokenizerVocab
  | GetModelParams
  | InstantiateModel
  | LoadStateDict
  | ModelEval
  | DummyInput
  | OnnxExport
  | OnnxLoad
  | CheckModel
  | InstantiateService
  | Pack (artifact : string)
  | Save
  | BentomlServe
  | NvidiaSmi
  | BentomlServeNgrok
  | BentomlContainerize
  | DockerRun.

#[global] Instance step_eq_dec : EqDecision step.
Proof. solve_decision. Defined.

Record cell := mkCell { execution_count : option nat; source : list step }.

(** The code cells in document order, each with its recorded execution
    count and its statements in order. *)
Definition cells : list cell := [
  mkCell (Some 1%nat) [ReloadAutoreload];
  mkCell (Some 2%nat) [PipInstall];
  mkCell (Some 3%nat) [CopyModelDir];
  mkCell (Some 4%nat) [ImportLibraries];
  mkCell (Some 5%nat) [DefineModelAndHelpers];
  mkCell (Some 6%nat) [WriteBentoSvc];
  mkCell (Some 7%nat) [ImportOnnxService; GetTokenizerVocab; GetModelParams;
                       InstantiateModel; LoadStateDict; ModelEval; DummyInput;
                       OnnxExport];
  mkCell (Some 8%nat) [OnnxLoad; CheckModel; InstantiateService; Pack "model";
                       Pack "tokenizer"; Pack "vocab"; Save];
  mkCell (Some 9%nat) [BentomlServe];
  mkCell (Some 10%nat) [NvidiaSmi];
  mkCell None [BentomlServeNgrok];
  mkCell (Some 11%nat) [BentomlContainerize];
  mkCell (Some 12%nat) [DockerRun];
  mkCell None []
].

(** Insertion of a cell by execution count; a cell that was never run has
    no place in the order. *)
Fixpoint insert_cell (n : nat) (c : cell) (l : list (nat * cell)) : list (nat * cell) :=
  match l with
  | [] => [(n, c)]
  | (m, d) :: l' =>
      if (n <? m)%nat then (n, c) :: (m, d) :: l' else (m, d) :: insert_cell n c l'
  end.

Fixpoint by_execution_count (cs : list cell) : list (nat * cell) :=
  match cs with
  | [] => []
  | c :: cs' =>
      match execution_count c with
      | Some n => insert_cell n c (by_execution_count cs')
      | None => by_execution_count cs'
      end
  end.

(** The statements that ran, in the order they ran. *)
Definition executed (cs : list cell) : list step :=
  flat_map (λ nc, source nc.2) (by_execution_count cs).

(** The statements in document order, run or not. *)
Definition document_order (cs : list cell) : list step := flat_map source cs.

(** The six stages of the linear script; set-up statements belong to none. *)
Definition stage (s : step) : option nat :=
  match s with
  | GetTokenizerVocab => Some 1%nat
  | GetModelParams | InstantiateModel | LoadStateDict | ModelEval => Some 2%nat
  | DummyInput | OnnxExport => Some 3%nat
  | OnnxLoad | CheckModel => Some 4%nat
  | InstantiateService | Pack _ | Save => Some 5%nat
  | BentomlServe | BentomlServeNgrok | BentomlContainerize | DockerRun => Some 6%nat
  | _ => None
  end.

(** Position of the first occurrence of [s]. *)
Fixpoint position (s : step) (l : list step) : option nat :=
  match l with
  | [] => None
  | x :: l' => if decide (x = s) then Some 0%nat else S <$> position s l'
  end.

(** [a] occurs, and every occurrence of [b] comes after its first occurrence. *)
Definition before (a b : step) (l : list step) : bool :=
  match position a l with
  | Some i => forallb (λ s, negb (bool_decide (s = b))) (take (S i) l)
              && bool_decide (b ∈ l)
  | None => false
  end.

Fixpoint nondecreasing (l : list nat) : bool :=
  match l with
  | x :: ((y :: _) as l') => (x <=? y)%nat && nondecreasing l'
  | _ => true
  end.

End Notebook.

(** ** A small concrete service, to run the definitions on *)

#[global] Instance Z_Float : Float Z := {|
  float_le := Z.leb;
  float_isnan := λ _, false
|}.

#[global] Instance Z_FloatOrder : FloatOrder Z.
Proof.
  split; simpl.
  - intros x y _ _. destruct (Z.leb_spec x y); [now left|right]. apply Z.leb_le. lia.
  - intros x y z Hxy%Z.leb_le Hyz%Z.leb_le. apply Z.leb_le. lia.
Qed.

Module Demo.

(** Split at spaces. *)
Fixpoint split_words (acc : string) (s : string) : list string :=
  match s with
  | EmptyString => if acc is EmptyString then [] else [acc]
  | String c s' =>
      if Ascii.eqb c " "%char then
        (if acc is EmptyString then [] else [acc]) ++ split_words EmptyString s'
      else split_words (acc +:+ String c EmptyString) s'
  end.

Definition tokenizer (x : json) : result (list string) :=
  match x with
  | JStr s => Ok (split_words EmptyString s)
  | _ => Raise (Exn AttributeError "object has no attribute 'lower'")
  end.

Definition stoi : gmap string Z :=
  {[ "<unk>" := 0; "<pad>" := 1; "the" := 2; "match" := 3; "shares" := 4;
     "chip" := 5; "treaty" := 6; "won" := 7; "fell" := 8 ]}.

Definition vocab (token : string) : result Z := Ok (default 0 (stoi !! token)).

(** One score per class: how many indices fall into the class modulo four. *)
Definition scores (ids : list Z) : list Z :=
  map (λ c, Z.of_nat (length (filter (λ i, i `mod` 4 = c) ids))) [2; 3; 0; 1].

(** A session with one int64 input and one four-wide output; it refuses
    any other feed. *)
Definition run (output_names : list string) (feed : gmap string (ndarray Z))
    : result (list (matrix Z)) :=
  match feed !! "input" with
  | Some a =>
      if bool_decide (a_dtype a = int64) && bool_decide (output_names = ["output"]) then
        Ok [[scores (a_data a)]]
      else Raise (Exn InvalidArgument "Unexpected input data type")
  | None => Raise (Exn InvalidArgument "Missing Input: input")
  end.

Definition session : InferenceSession Z :=
  mkSession (Ok [mkNodeArg "input" "tensor(int64)"])
            (Ok [mkNodeArg "output" "tensor(float)"])
            (Ok ["CUDAExecutionProvider"; "CPUExecutionProvider"])
            run.

Definition packed : Artifacts Z := mkArtifacts session tokenizer vocab.

(** The service object after construction. *)
Definition service : OnnxService Z := final (__init__ (mkService packed None)).

Definition request (s : string) : json := JObj {[ "text" := JStr s ]}.

End Demo.

(** ** The helper functions of the notebook and the export cell *)

Section MoreObservations.
Context {F : Type}.

(** The events of the trace that are calls of the tokenizer. *)
Definition is_tokenizer (ev : event F) : bool :=
  if ev is ETokenizer _ _ then true else false.

Definition tokenizer_calls (t : list (event F)) : list (event F) :=
  List.filter is_tokenizer t.

(** The artifacts [a] answer the call recorded in [ev] as it was answered
    when [ev] was recorded; a printed line asks nothing of them. *)
Definition answers (a : Artifacts F) (ev : event F) : Prop :=
  match ev with
  | EPrint _ => True
  | ETokenizer x r => tokenizer a x = r
  | EVocab token r => vocab a token = r
  | EGetInputs r => get_inputs (model a) = r
  | EGetOutputs r => get_outputs (model a) = r
  | EGetProviders r => get_providers (model a) = r
  | ERun output_names input_feed r => run (model a) output_names input_feed = r
  end.

(** A method whose run is decided by the label table and by the answers to
    the calls it makes: on another object with the same table, whose
    artifacts answer the calls of the first run as they were answered, it
    makes the same calls, prints the same lines and ends the same way. *)
Definition replays {A} (m : M F A) : Prop :=
  ∀ self1 self2,
    news_label self1 = news_label self2 →
    (∀ ev, ev ∈ trace (m self1) → answers (artifacts self2) ev) →
    trace (m self2) = trace (m self1) ∧ outcome (m self2) = outcome (m self1).

(** A method whose trace records the answers of the object's own artifacts. *)
Definition records_answers {A} (m : M F A) : Prop :=
  ∀ self ev, ev ∈ trace (m self) → answers (artifacts self) ev.

End MoreObservations.

Module Training.

Definition EMSIZE : nat := 64.

(** [counter.update(iterable)] of [collections.Counter]: one more for every
    element, from zero for an element that is not yet a key. *)
Definition Counter_update (counter : gmap string nat) (iterable : list string)
    : gmap string nat :=
  foldl (λ c elem, <[ elem := (default 0 (c !! elem) + 1)%nat ]> c) counter iterable.

(** How often [token] occurs in a list of tokens. *)
Definition occurrences (token : string) (tokens : list string) : nat :=
  length (filter (λ x, x = token) tokens).

(** [for (label, line) in train_: counter.update(tokenizer(line))] *)
Fixpoint count_lines (tokenizer : json → result (list string))
    (counter : gmap string nat) (train_ : list (Z * string)) : result (gmap string nat) :=
  match train_ with
  | [] => Ok counter
  | (label, line) :: rest =>
      result_bind (tokenizer (JStr line)) (λ tokens,
      count_lines tokenizer (Counter_update counter tokens) rest)
  end.

Section Helpers.
(** The vocabulary class of torchtext: its constructor [Vocab(counter,
    min_freq=...)] and [len(vocab)]. *)
Context {V : Type} (Vocab : gmap string nat → nat → V) (len : V → nat).

(** [get_tokenizer_vocab(dataset, tokenizer_fn, root_data_dir)]: what it
    prints, and what it returns. *)
Definition get_tokenizer_vocab
    (get_tokenizer : string → json → result (list string))
    (dataset : string → string → list (Z * string))
    (tokenizer_fn root_data_dir : string)
    : list string * result ((json → result (list string)) * V) :=
  let tokenizer := get_tokenizer tokenizer_fn in
  let train_ := dataset root_data_dir "train" in
  (["Getting tokenizer and vocab..."],
   result_bind (count_lines tokenizer ∅ train_) (λ counter,
   Ok (tokenizer, Vocab counter 1%nat))).

(** [get_model_params(vocab)] *)
Definition get_model_params (AG_NEWS : string → string → list (Z * string)) (vocab : V)
    : list string * (nat * nat * nat) :=
  let train_iter := AG_NEWS "dataset" "train" in
  let num_class := size (list_to_set (map fst train_iter) : gset Z) in
  let vocab_size := len vocab in
  (["Setup model params..."], (vocab_size, EMSIZE, num_class)).

End Helpers.

(** [t.long()] on one value: the fractional part is dropped. *)
Definition long (x : Q) : Z := Z.quot (Qnum x) (Z.pos (Qden x)).

(** [torch.rand(n)]: [n] draws; [source] is the generator's sequence. *)
Definition rand (source : nat → Q) (n : nat) : Tensor Q :=
  mkTensor float32 [n] (map source (seq 0 n)) cpu_device false.

Definition Tensor_long (t : Tensor Q) : Tensor Z :=
  mkTensor int64 (t_shape t) (map long (t_data t)) (t_device t) false.

(** [inp = torch.rand(vocab_size).long().to(device)] of the export cell. *)
Definition dummy_input (source : nat → Q) (vocab_size : nat) (device : Device) : Tensor Z :=
  to device (Tensor_long (rand source vocab_size)).

End Training.

(** ** Variants of the small service, for the edge cases *)

Module Cases.

(** A vocabulary that is a plain dict: an unknown token is a [KeyError]. *)
Definition strict_vocab (token : string) : result Z :=
  match Demo.stoi !! token with
  | Some i => Ok i
  | None => Raise (Exn KeyError token)
  end.

(** A vocabulary with an index that does not fit 64 bits. *)
Definition huge_vocab (token : string) : result Z :=
  if bool_decide (token = "chip") then Ok (2 ^ 63) else Demo.vocab token.

(** A tokenizer that fails with a [RuntimeError]. *)
Definition broken_tokenizer (x : json) : result (list string) :=
  Raise (Exn RuntimeError "tokenizer").

(** A session that declares no input. *)
Definition no_input_session : InferenceSession Z :=
  mkSession (Ok []) (Ok [mkNodeArg "output" "tensor(float)"])
            (Ok ["CPUExecutionProvider"]) Demo.run.

(** A session of a five-class graph. *)
Definition wide_session : InferenceSession Z :=
  mkSession (Ok [mkNodeArg "input" "tensor(int64)"])
            (Ok [mkNodeArg "output" "tensor(float)"])
            (Ok ["CPUExecutionProvider"])
            (λ _ _, Ok [[[0; 1; 0; 2; 5]]]).

(** A session whose output has two rows. *)
Definition batch_session : InferenceSession Z :=
  mkSession (Ok [mkNodeArg "input" "tensor(int64)"])
            (Ok [mkNodeArg "output" "tensor(float)"])
            (Ok ["CPUExecutionProvider"])
            (λ _ _, Ok [[[0; 1; 0; 2]; [3; 0; 0; 0]]]).

Definition service_of (a : Artifacts Z) : OnnxService Z :=
  final (__init__ (mkService a None)).

Definition strict : OnnxService Z :=
  service_of (mkArtifacts Demo.session Demo.tokenizer strict_vocab).
Definition huge : OnnxService Z :=
  service_of (mkArtifacts Demo.session Demo.tokenizer huge_vocab).
Definition broken : OnnxService Z :=
  service_of (mkArtifacts Demo.session broken_tokenizer Demo.vocab).
Definition no_input : OnnxService Z :=
  service_of (mkArtifacts no_input_session Demo.tokenizer Demo.vocab).
Definition wide : OnnxService Z :=
  service_of (mkArtifacts wide_session Demo.tokenizer Demo.vocab).
Definition batch : OnnxService Z :=
  service_of (mkArtifacts batch_session Demo.tokenizer Demo.vocab).

(** A training split of five lines, and the same lines in another order
    under other labels. *)
Definition train : list (Z * string) :=
  [(2, "the match won"); (3, "shares fell"); (4, "chip"); (1, "treaty");
   (2, "the match")].

Definition shuffled : list (Z * string) :=
  [(1, "chip"); (1, "the match"); (7, "treaty"); (0, "the match won");
   (0, "shares fell")].

(** A vocabulary class that keeps the counter and the threshold. *)
Definition Vocab (counter : gmap string nat) (min_freq : nat) : gmap string nat * nat :=
  (counter, min_freq).

(** Draws of [torch.rand]: 0, 1/2, 2/3, 3/4, ... *)
Definition draws (i : nat) : Q := Qmake (Z.of_nat i) (Pos.of_succ_nat i).

End Cases.

(** * Properties *)

(** ** Tensors to arrays *)

Lemma numpy_requires_grad {A} (t : Tensor A) :
  requires_grad t = true → ∃ e, numpy (clone (cpu t)) = Raise e ∧ exn_class e = RuntimeError.
Proof.
  intros Hg. unfold numpy. simpl. rewrite Hg. eauto.
Qed.

Lemma to_numpy_Ok {A} (t : Tensor A) :
  numpy_dtype (t_dtype t) = true →
  to_numpy t = Ok (mkArray (t_dtype t) (t_shape t) (t_data t)).
Proof.
  intros Hd. unfold to_numpy. destruct (requires_grad t) eqn:Hg.
  - unfold numpy. simpl. now rewrite Hd.
  - unfold numpy. simpl. now rewrite Hg, Hd.
Qed.

Lemma to_numpy_unsupported {A} (t : Tensor A) :
  numpy_dtype (t_dtype t) = false →
  to_numpy t = Raise (Exn TypeError "Got unsupported ScalarType").
Proof.
  intros Hd. unfold to_numpy. destruct (requires_grad t) eqn:Hg.
  - unfold numpy. simpl. now rewrite Hd.
  - unfold numpy. simpl. now rewrite Hg, Hd.
Qed.

(** C5 (amended). On every tensor whose dtype numpy has, on any device and
    whether or not it requires gradients, [to_numpy] returns an array with
    the dtype, the shape and exactly the values of the tensor.  On the
    detached tensor it returns the same array as on the tensor itself; and
    for a tensor that requires gradients the detaching is what makes the
    conversion possible: the conversion of the other branch raises on it. *)
Theorem to_numpy_values {A} (t : Tensor A) :
  numpy_dtype (t_dtype t) = true →
  to_numpy t = Ok (mkArray (t_dtype t) (t_shape t) (t_data t))
  ∧ to_numpy (detach t) = to_numpy t
  ∧ (requires_grad t = true →
     ∃ e, numpy (clone (cpu t)) = Raise e ∧ exn_class e = RuntimeError).
Proof.
  intros Hd. split; [now apply to_numpy_Ok|]. split.
  - rewrite !to_numpy_Ok by exact Hd. reflexivity.
  - intros Hg. unfold numpy. simpl. rewrite Hg. eauto.
Qed.

Section Proofs.
Context {F : Type} `{Float F}.
Implicit Types (self : OnnxService F) (a : Artifacts F) (t : list (event F)).

(** ** The monad *)

Lemma bind_Ok {A B} (m : M F A) (f : A → M F B) self t self' x :
  m self = (t, self', Ok x) →
  bind m f self = (t ++ trace (f x self'), final (f x self'), outcome (f x self')).
Proof.
  intros Hm. unfold bind. rewrite Hm.
  destruct (f x self') as [[t' self''] r]. reflexivity.
Qed.

(** *** Methods that assign no attribute *)

Lemma read_only_ret {A} (x : A) : read_only (F:=F) (ret x).
Proof. now intros self. Qed.

Lemma read_only_raise {A} e : read_only (F:=F) (raise (A:=A) e).
Proof. now intros self. Qed.

Lemma read_only_lift {A} (r : result A) : read_only (F:=F) (lift r).
Proof. now intros self. Qed.

Lemma read_only_print o : read_only (F:=F) (print o).
Proof. now intros self. Qed.

Lemma read_only_getattr {A} (attr : OnnxService F → option A) n :
  read_only (getattr attr n).
Proof. now intros self. Qed.

Lemma read_only_call {A} (f : Artifacts F → result A) ev : read_only (call f ev).
Proof. now intros self. Qed.

Lemma read_only_bind {A B} (m : M F A) (f : A → M F B) :
  read_only m → (∀ x, read_only (f x)) → read_only (bind m f).
Proof.
  intros Hm Hf self. unfold bind.
  pose proof (Hm self) as E.
  destruct (m self) as [[t self'] [x|e]]; unfold final in E; simpl in E; subst self'.
  - pose proof (Hf x self) as E. now destruct (f x self) as [[t' self''] r].
  - reflexivity.
Qed.

Lemma read_only_try_except {A} (body : M F A) classes (handler : exn → M F A) :
  read_only body → (∀ e, read_only (handler e)) →
  read_only (try_except body classes handler).
Proof.
  intros Hb Hh self. unfold try_except.
  pose proof (Hb self) as E.
  destruct (body self) as [[t self'] [x|e]]; unfold final in E; simpl in E; subst self'.
  - reflexivity.
  - destruct (isinstance e classes); [|reflexivity].
    pose proof (Hh e self) as E. now destruct (handler e self) as [[t' self''] r].
Qed.

Lemma read_only_for_list {A B} (f : A → M F B) l :
  (∀ x, read_only (f x)) → read_only (for_list f l).
Proof.
  intros Hf. induction l as [|x l IH]; simpl.
  - apply read_only_ret.
  - apply read_only_bind; [apply Hf|]. intros y.
    apply read_only_bind; [apply IH|]. intros ys. apply read_only_ret.
Qed.

Create HintDb read_only.
#[local] Hint Resolve read_only_ret read_only_raise read_only_lift read_only_print
  read_only_getattr read_only_call read_only_bind read_only_try_except
  read_only_for_list : read_only.

Lemma read_only_get_pipeline (tk : json → M F (list string)) (vc : string → M F Z) :
  read_only (get_pipeline tk vc).
Proof. unfold get_pipeline. auto with read_only. Qed.

Lemma read_only_text_pipeline x :
  read_only (F:=F)
    (bind (artifacts_tokenizer x) (λ tokens, for_list artifacts_vocab tokens)).
Proof. unfold artifacts_tokenizer, artifacts_vocab. auto with read_only. Qed.

Lemma read_only_bind_returned {A B} (m : M F A) (f : A → M F B) :
  read_only m →
  (∀ self x, outcome (m self) = Ok x → read_only (f x)) →
  read_only (bind m f).
Proof.
  intros Hm Hf self. unfold bind.
  pose proof (Hm self) as E. pose proof (Hf self) as Hx.
  destruct (m self) as [[t self'] [x|e]]; unfold final in E; simpl in E; subst self'.
  - pose proof (Hx x eq_refl self) as E. now destruct (f x self) as [[t' self''] r].
  - reflexivity.
Qed.

Lemma read_only_classify_categories device sentence :
  read_only (F:=F) (classify_categories device sentence).
Proof.
  unfold classify_categories.
  apply read_only_bind_returned; [apply read_only_get_pipeline|].
  intros self p [= <-]. simpl.
  apply read_only_bind; [apply read_only_text_pipeline|]. intros ids.
  do 8 (apply read_only_bind; [auto with read_only|intros]).
  apply read_only_try_except; [auto 10 with read_only|].
  intros e. rewrite lookup_singleton_eq. auto with read_only.
Qed.

Lemma read_only_predict device parsed_json :
  read_only (F:=F) (predict device parsed_json).
Proof.
  unfold predict.
  pose proof read_only_classify_categories. auto 10 with read_only.
Qed.

(** ** The text pipeline *)

Lemma for_list_vocab toks self :
  for_list artifacts_vocab toks self
  = (lookup_events (vocab (artifacts self)) toks, self,
     lookup_all (vocab (artifacts self)) toks).
Proof.
  induction toks as [|tok toks IH]; [reflexivity|].
  simpl. unfold bind at 1. unfold artifacts_vocab at 1, call.
  destruct (vocab (artifacts self) tok) as [i|e]; [|reflexivity].
  unfold bind at 1. rewrite IH.
  destruct (lookup_all (vocab (artifacts self)) toks) as [js|e]; simpl.
  - now rewrite app_nil_r.
  - reflexivity.
Qed.

Lemma lookup_all_Ok (v : string → result Z) toks ids :
  lookup_all v toks = Ok ids ↔ Forall2 (λ tok i, v tok = Ok i) toks ids.
Proof.
  revert ids. induction toks as [|tok toks IH]; intros ids; simpl.
  - split.
    + intros [= <-]. constructor.
    + intros Hf. now inversion Hf.
  - split.
    + destruct (v tok) as [i|e] eqn:Hv; [|discriminate]. simpl.
      destruct (lookup_all v toks) as [js|e] eqn:Hl; [|discriminate]. simpl.
      intros [= <-]. constructor; [exact Hv|]. now apply IH.
    + intros Hf. inversion Hf as [|? i ? js Hv Hrest]; subst.
      rewrite Hv. simpl. apply IH in Hrest. now rewrite Hrest.
Qed.

Lemma lookup_events_Ok (v : string → result Z) toks ids :
  Forall2 (λ tok i, v tok = Ok i) toks ids →
  lookup_events (F:=F) v toks = zip_with (λ tok i, EVocab tok (Ok i)) toks ids.
Proof.
  induction 1 as [|tok i toks ids Hv _ IH]; [reflexivity|].
  simpl. rewrite Hv. now rewrite IH.
Qed.

Lemma text_pipeline_run x self :
  bind (artifacts_tokenizer x) (λ tokens, for_list artifacts_vocab tokens) self
  = match tokenizer (artifacts self) x with
    | Ok toks =>
        (ETokenizer x (Ok toks) :: lookup_events (vocab (artifacts self)) toks, self,
         lookup_all (vocab (artifacts self)) toks)
    | Raise e => ([ETokenizer x (Raise e)], self, Raise e)
    end.
Proof.
  unfold bind, artifacts_tokenizer, call.
  destruct (tokenizer (artifacts self) x) as [toks|e]; [|reflexivity].
  now rewrite for_list_vocab.
Qed.

(** C4. The text pipeline that [get_pipeline] builds from the packed tokenizer
    and vocabulary: for a string [s] on which the tokenizer returns the
    tokens [toks], each of which the vocabulary maps to the index at the
    same position of [ids], the pipeline calls the tokenizer once on [s],
    then the vocabulary on every token in order, and returns exactly the
    list [ids], one index per token and as many indices as tokens; it
    leaves the service unchanged.  Conversely a list that the pipeline
    returns is made of the vocabulary's indices of the tokenizer's tokens. *)
Theorem text_pipeline_maps_tokens (s : string) self0 self toks ids :
  tokenizer (artifacts self) (JStr s) = Ok toks →
  Forall2 (λ tok i, vocab (artifacts self) tok = Ok i) toks ids →
  ∃ text_pipeline label_pipeline,
    get_pipeline artifacts_tokenizer artifacts_vocab self0
    = ([EPrint SetupPipeline], self0, Ok (text_pipeline, label_pipeline))
    ∧ text_pipeline (JStr s) self
      = (ETokenizer (JStr s) (Ok toks) :: zip_with (λ tok i, EVocab tok (Ok i)) toks ids,
         self, Ok ids)
    ∧ length ids = length toks
    ∧ (∀ i tok, toks !! i = Some tok → ∃ j, ids !! i = Some j
                                            ∧ vocab (artifacts self) tok = Ok j)
    ∧ (∀ self' ids',
         outcome (text_pipeline (JStr s) self') = Ok ids' →
         ∃ toks', tokenizer (artifacts self') (JStr s) = Ok toks'
                  ∧ Forall2 (λ tok i, vocab (artifacts self') tok = Ok i) toks' ids').
Proof.
  intros Htok Hids.
  eexists _, _. split; [reflexivity|].
  split; [|split; [|split]].
  - rewrite text_pipeline_run, Htok, (lookup_events_Ok _ _ _ Hids).
    apply lookup_all_Ok in Hids. now rewrite Hids.
  - symmetry. eapply Forall2_length, Hids.
  - intros i tok Hi.
    destruct (Forall2_lookup_l _ _ _ _ _ Hids Hi) as (j & Hj & Hv). eauto.
  - intros self' ids'. rewrite text_pipeline_run.
    destruct (tokenizer (artifacts self') (JStr s)) as [toks'|e]; [|discriminate].
    unfold outcome. simpl. intros Hall%lookup_all_Ok. eauto.
Qed.

(** ** [classify_categories], case by case *)

Lemma run_calls_app t1 t2 : run_calls (t1 ++ t2) = run_calls t1 ++ run_calls t2.
Proof. apply List.filter_app. Qed.

Lemma error_lines_app t1 t2 : error_lines (t1 ++ t2) = error_lines t1 ++ error_lines t2.
Proof. apply List.filter_app. Qed.

Lemma run_calls_lookup_events (v : string → result Z) toks :
  run_calls (F:=F) (lookup_events v toks) = [].
Proof.
  induction toks as [|tok toks IH]; [reflexivity|].
  simpl. now destruct (v tok).
Qed.

Lemma error_lines_lookup_events (v : string → result Z) toks :
  error_lines (F:=F) (lookup_events v toks) = [].
Proof.
  induction toks as [|tok toks IH]; [reflexivity|].
  simpl. now destruct (v tok).
Qed.

Lemma run_calls_cons ev t :
  run_calls (ev :: t) = if is_run ev then ev :: run_calls t else run_calls t.
Proof. reflexivity. Qed.

Lemma error_lines_cons ev t :
  error_lines (ev :: t) = if is_error_line ev then ev :: error_lines t else error_lines t.
Proof. reflexivity. Qed.

Lemma last_cons_Some {A} (x y : A) l : last l = Some y → last (x :: l) = Some y.
Proof. intros Hl. rewrite last_cons. now rewrite Hl. Qed.

Lemma last_app_Some {A} (y : A) l1 l2 : last l2 = Some y → last (l1 ++ l2) = Some y.
Proof. intros Hl. rewrite last_app. now rewrite Hl. Qed.

Lemma torch_tensor_to_numpy device ids tensor :
  torch_tensor ids = Ok tensor →
  forallb in_int64 ids = true ∧ to_numpy (to device tensor) = Ok (session_input ids).
Proof.
  unfold torch_tensor. destruct (forallb in_int64 ids); [|discriminate].
  intros [= <-]. split; [reflexivity|].
  rewrite to_numpy_Ok; [reflexivity|]. simpl. now destruct ids.
Qed.

Lemma index0_Raise {A} (l : list A) e : index0 l = Raise e → exn_class e = IndexError.
Proof. destruct l; [intros [= <-]; reflexivity|discriminate]. Qed.

Lemma argmax1_Raise (r : matrix F) e : argmax1 r = Raise e → exn_class e = ValueError.
Proof.
  unfold argmax1. induction r as [|row r IH]; simpl; [discriminate|].
  destruct row as [|x row]; simpl; [intros [= <-]; reflexivity|].
  destruct (argmax_rows r) as [js|e']; simpl; [discriminate|].
  intros [= <-]. now apply IH.
Qed.

Lemma item_Raise am e : item am = Raise e → exn_class e = ValueError.
Proof.
  destruct am as [|i [|j am]]; simpl; try discriminate; intros [= <-]; reflexivity.
Qed.

Ltac known_class Hr :=
  match type of Hr with
  | _ = Raise ?e =>
      first [apply index0_Raise in Hr | apply argmax1_Raise in Hr | apply item_Raise in Hr];
      destruct e as [c msg]; simpl in Hr; subst c; simpl
  end.

Ltac trace_simpl :=
  unfold trace, outcome, final; cbn [fst snd app];
  repeat first
    [ rewrite run_calls_app | rewrite error_lines_app
    | rewrite run_calls_lookup_events | rewrite error_lines_lookup_events
    | rewrite run_calls_cons | rewrite error_lines_cons
    | progress cbn [is_run is_error_line app fst snd] ].

Ltac last_event :=
  repeat first
    [ reflexivity
    | apply last_app_Some
    | apply last_cons_Some ].

(** What a run of [classify_categories] can be: it raises before the session
    is run; or the session is run once, on a feed of one array, and the
    outcome is decided by the result of that call. *)
Lemma classify_cases device sentence self :
  let o := classify_categories device sentence self in
  (run_calls (trace o) = [] ∧ error_lines (trace o) = [] ∧ ∃ e, outcome o = Raise e)
  ∨ (∃ outn inn ids r,
       let call_ev := ERun [outn] {[ inn := session_input ids ]} r in
       run_calls (trace o) = [call_ev] ∧
       match r with
       | Raise e =>
           if isinstance e [RuntimeError; InvalidArgument] then
             outcome o = Ok None
             ∧ error_lines (trace o) = [EPrint (ErrorWithShape [length ids] e)]
             ∧ last (trace o) = Some (EPrint (ErrorWithShape [length ids] e))
           else
             outcome o = Raise e
             ∧ error_lines (trace o) = []
             ∧ last (trace o) = Some call_ev
       | Ok outs =>
           error_lines (trace o) = []
           ∧ last (trace o) = Some call_ev
           ∧ outcome o = result_bind (index0 outs) (λ r,
                         result_bind (argmax1 r) (λ am,
                         result_bind (item am) (λ i, Ok (Some (i + 1)))))
       end).
Proof.
  intros o. subst o.
  unfold classify_categories, get_pipeline.
  cbv [bind print ret lift call artifacts_tokenizer try_except raise]. cbn [fst snd].
  destruct (tokenizer (artifacts self) sentence) as [toks|e];
    [|left; trace_simpl; eauto].
  rewrite for_list_vocab.
  destruct (lookup_all (vocab (artifacts self)) toks) as [ids|e];
    [|left; trace_simpl; eauto].
  destruct (torch_tensor ids) as [tensor|e] eqn:Ht;
    [|left; trace_simpl; eauto].
  apply (torch_tensor_to_numpy device) in Ht as [_ ->].
  destruct (get_inputs (model (artifacts self))) as [inputs|e];
    [|left; trace_simpl; eauto].
  destruct (index0 inputs) as [inp|e]; [|left; trace_simpl; eauto].
  destruct (get_outputs (model (artifacts self))) as [outputs|e];
    [|left; trace_simpl; eauto].
  destruct (index0 outputs) as [out|e]; [|left; trace_simpl; eauto].
  destruct (get_providers (model (artifacts self))) as [provs|e];
    [|left; trace_simpl; eauto].
  rewrite lookup_singleton_eq.
  right. exists (name out), (name inp), ids.
  exists (run (model (artifacts self)) [name out] {[name inp := session_input ids]}).
  destruct (run _ _ _) as [outs|e].
  - destruct (index0 outs) as [r|e] eqn:Hr; simpl.
    2: { known_class Hr. trace_simpl. repeat split. last_event. }
    destruct (argmax1 r) as [am|e] eqn:Ham; simpl.
    2: { known_class Ham. trace_simpl. repeat split. last_event. }
    destruct (item am) as [i|e] eqn:Hi; simpl.
    2: { known_class Hi. trace_simpl. repeat split. last_event. }
    trace_simpl. repeat split. last_event.
  - destruct (isinstance e [RuntimeError; InvalidArgument]).
    + trace_simpl. repeat split. last_event.
    + trace_simpl. repeat split. last_event.
Qed.

(** ** [argmax] *)

Lemma argmax_scan_lt mp max_ind i ip :
  (max_ind < i)%nat → (argmax_scan mp max_ind i ip < i + length ip)%nat.
Proof.
  revert mp max_ind i. induction ip as [|x ip IH]; intros mp max_ind i Hlt; simpl.
  - lia.
  - destruct (negb (float_le x mp)).
    + destruct (float_isnan x); [lia|].
      specialize (IH x i (S i)). lia.
    + specialize (IH mp max_ind (S i)). lia.
Qed.

Lemma argmax_row_lt row :
  row ≠ [] → ∃ k, argmax_row row = Ok k ∧ (k < length row)%nat.
Proof.
  destruct row as [|x ip]; [done|]. intros _. simpl.
  eexists. split; [reflexivity|].
  destruct (float_isnan x); [lia|].
  pose proof (argmax_scan_lt x 0 1 ip). lia.
Qed.

Lemma argmax_scan_max `{!FloatOrder F} pre mp max_ind ip :
  pre !! max_ind = Some mp →
  (∀ x, x ∈ pre ++ ip → float_isnan x = false) →
  (∀ x, x ∈ pre → float_le x mp = true) →
  ∃ m, (pre ++ ip) !! argmax_scan mp max_ind (length pre) ip = Some m
       ∧ ∀ x, x ∈ pre ++ ip → float_le x m = true.
Proof.
  revert pre mp max_ind. induction ip as [|x ip IH]; intros pre mp max_ind Hmp Hnan Hmax; simpl.
  - exists mp. rewrite !app_nil_r. split; [exact Hmp|]. exact Hmax.
  - assert (Hx : float_isnan x = false) by (apply Hnan; set_solver).
    assert (Hm : float_isnan mp = false).
    { apply Hnan. apply list_elem_of_lookup_2 in Hmp. set_solver. }
    replace (pre ++ x :: ip) with ((pre ++ [x]) ++ ip) in * by now rewrite <- app_assoc.
    replace (S (length pre)) with (length (pre ++ [x])) by (rewrite length_app; simpl; lia).
    destruct (float_le x mp) eqn:Hle; simpl.
    + apply IH.
      * rewrite lookup_app_l; [exact Hmp|]. now apply lookup_lt_Some in Hmp.
      * exact Hnan.
      * intros y [Hy| ->%list_elem_of_singleton]%elem_of_app; [now apply Hmax|exact Hle].
    + rewrite Hx. apply IH.
      * rewrite lookup_app_r by lia. now rewrite Nat.sub_diag.
      * exact Hnan.
      * destruct (float_le_total x mp Hx Hm) as [Hc|Hc]; [congruence|].
        assert (Hr : float_le x x = true) by now destruct (float_le_total x x Hx Hx).
        intros y [Hy| ->%list_elem_of_singleton]%elem_of_app; [|exact Hr].
        eapply float_le_trans; [now apply Hmax|exact Hc].
Qed.

Lemma argmax_row_max `{!FloatOrder F} row k :
  argmax_row row = Ok k →
  (∀ x, x ∈ row → float_isnan x = false) →
  ∃ m, row !! k = Some m ∧ ∀ x, x ∈ row → float_le x m = true.
Proof.
  destruct row as [|x ip]; [discriminate|]. simpl. intros [= <-] Hnan.
  assert (Hx : float_isnan x = false) by (apply Hnan; set_solver).
  rewrite Hx.
  apply (argmax_scan_max [x] x 0 ip); [reflexivity|exact Hnan|].
  intros y ->%list_elem_of_singleton.
  now destruct (float_le_total x x Hx Hx).
Qed.

Lemma label_table_lookup (k : nat) :
  (k < 4)%nat →
  ∃ c, label_table !! Some (Z.of_nat k + 1) = Some c ∧ c ∈ categories.
Proof.
  intros Hk. destruct k as [|[|[|[|k]]]]; [..|lia];
    eexists; (split; [reflexivity|]); unfold categories; set_solver.
Qed.

(** ** Runs in which every call succeeds *)

Lemma classify_success device sentence self toks ids inputs outputs inp out provs row outs k :
  Classifies (artifacts self) sentence toks ids inputs outputs inp out provs row outs →
  argmax_row row = Ok k →
  classify_categories device sentence self
  = (EPrint SetupPipeline :: ETokenizer sentence (Ok toks)
       :: zip_with (λ tok i, EVocab tok (Ok i)) toks ids
       ++ [EGetInputs (Ok inputs); EGetOutputs (Ok outputs); EGetProviders (Ok provs);
           EPrint (Providers provs);
           ERun [name out] {[ name inp := session_input ids ]} (Ok outs)],
     self, Ok (Some (Z.of_nat k + 1))).
Proof.
  intros [Htok Hids Hint Hin Hin0 Hout Hout0 Hprov Hrun Hrow] Hk.
  unfold classify_categories, get_pipeline.
  cbv [bind print ret lift call artifacts_tokenizer try_except raise]. cbn [fst snd].
  rewrite Htok, for_list_vocab.
  rewrite (lookup_events_Ok _ _ _ Hids).
  apply lookup_all_Ok in Hids. rewrite Hids.
  destruct (torch_tensor ids) as [tensor|e] eqn:Ht.
  2: { unfold torch_tensor in Ht. rewrite Hint in Ht. discriminate. }
  apply (torch_tensor_to_numpy device) in Ht as [_ ->].
  rewrite Hin, Hin0, Hout, Hout0, Hprov, Hrun, Hrow.
  unfold argmax1. simpl. rewrite Hk. simpl.
  reflexivity.
Qed.

Lemma predict_run device parsed_json sentence labels self :
  dict_get parsed_json "text" = Ok sentence →
  news_label self = Some labels →
  predict device parsed_json self
  = (trace (classify_categories device sentence self), self,
     result_bind (outcome (classify_categories device sentence self)) (λ category,
     result_bind (dict_getitem labels category) (λ label,
     Ok (categories_response label)))).
Proof.
  intros Hget Hlabels. unfold predict.
  cbv [bind lift getattr ret]. rewrite Hget, Hlabels.
  pose proof (read_only_classify_categories device sentence self) as Hself.
  destruct (classify_categories device sentence self) as [[t self'] [category|e]];
    unfold final in Hself; simpl in Hself; subst self'; unfold trace, outcome; simpl.
  - destruct (dict_getitem labels category); simpl; now rewrite ?app_nil_r.
  - reflexivity.
Qed.

(** C2. When every call on the artifacts succeeds for the sentence and the
    session's first output is one row of one to four scores,
    [classify_categories] does exactly this, in this order: it tokenizes the
    sentence with the packed tokenizer, looks every token up in the packed
    vocabulary, asks the session for its inputs, outputs and providers, and
    runs it once on the array of the indices; it returns the position [k] of
    the row's maximum plus one, which is a key of the label table bound to
    one of the four categories; and (for scores without NaN that the
    comparison orders) position [k] holds a score that no score of the row
    exceeds.  The service is left unchanged. *)
Theorem classify_categories_steps device sentence self toks ids inputs outputs inp
    out provs row outs :
  Classifies (artifacts self) sentence toks ids inputs outputs inp out provs row outs →
  row ≠ [] →
  (length row ≤ 4)%nat →
  ∃ k : nat,
    argmax_row row = Ok k
    ∧ (k < length row)%nat
    ∧ classify_categories device sentence self
      = (EPrint SetupPipeline :: ETokenizer sentence (Ok toks)
           :: zip_with (λ tok i, EVocab tok (Ok i)) toks ids
           ++ [EGetInputs (Ok inputs); EGetOutputs (Ok outputs);
               EGetProviders (Ok provs); EPrint (Providers provs);
               ERun [name out] {[ name inp := session_input ids ]} (Ok outs)],
         self, Ok (Some (Z.of_nat k + 1)))
    ∧ a_data (session_input ids) = ids
    ∧ length ids = length toks
    ∧ (∃ c, label_table !! Some (Z.of_nat k + 1) = Some c ∧ c ∈ categories)
    ∧ (FloatOrder F → (∀ x, x ∈ row → float_isnan x = false) →
       ∃ m, row !! k = Some m ∧ ∀ x, x ∈ row → float_le x m = true).
Proof.
  intros Hcl Hrow Hlen.
  destruct (argmax_row_lt row Hrow) as (k & Hk & Hlt).
  exists k. split; [exact Hk|]. split; [exact Hlt|].
  split; [now apply (classify_success _ _ _ _ _ _ _ _ _ _ row outs k)|].
  split; [reflexivity|].
  split; [pose proof Hcl as [_ Hids _ _ _ _ _ _ _ _];
          symmetry; eapply Forall2_length, Hids|].
  split; [apply label_table_lookup; lia|].
  intros Hord Hnan. now apply argmax_row_max.
Qed.

(** C1 (amended). For a request whose body binds 'text' to a string, on a
    constructed service: when every call on the artifacts succeeds for the
    string and the session's first output is one row of one to four scores,
    [predict] returns the object {'categories': c} with [c] one of 'World',
    'Sports', 'Business', 'Sci/Tec', and leaves the service unchanged. *)
Theorem predict_returns_category device (m : gmap string json) (s : string) self toks ids
    inputs outputs inp out provs row outs :
  m !! "text" = Some (JStr s) →
  news_label self = Some label_table →
  Classifies (artifacts self) (JStr s) toks ids inputs outputs inp out provs row outs →
  row ≠ [] →
  (length row ≤ 4)%nat →
  ∃ c, outcome (predict device (JObj m) self) = Ok (categories_response c)
       ∧ c ∈ categories
       ∧ final (predict device (JObj m) self) = self.
Proof.
  intros Hm Hlabels Hcl Hrow Hlen.
  destruct (argmax_row_lt row Hrow) as (k & Hk & Hlt).
  destruct (label_table_lookup k) as (c & Hc & Hin); [lia|].
  exists c.
  rewrite (predict_run device (JObj m) (JStr s) label_table self);
    [|simpl; now rewrite Hm|exact Hlabels].
  rewrite (classify_success _ _ _ _ _ _ _ _ _ _ _ _ _ Hcl Hk).
  unfold outcome, final, dict_getitem. simpl. rewrite Hc. auto.
Qed.

(** ** The [except] block *)

Lemma elem_of_run_calls ev t : ev ∈ run_calls t ↔ ev ∈ t ∧ is_run ev = true.
Proof. unfold run_calls. rewrite !list_elem_of_In. apply List.filter_In. Qed.

Lemma after_run_not_None (outs : list (matrix F)) :
  result_bind (index0 outs) (λ r,
  result_bind (argmax1 r) (λ am,
  result_bind (item am) (λ i, Ok (Some (i + 1))))) ≠ Ok None.
Proof.
  destruct (index0 outs) as [r|e]; simpl; [|discriminate].
  destruct (argmax1 r) as [am|e]; simpl; [|discriminate].
  destruct (item am) as [i|e]; simpl; discriminate.
Qed.

Lemma run_event_in_trace device sentence self outs feed r :
  ERun outs feed r ∈ trace (classify_categories device sentence self) →
  run_calls (trace (classify_categories device sentence self)) = [ERun outs feed r].
Proof.
  intros Hev.
  assert (Hmem : ERun outs feed r ∈ run_calls (trace (classify_categories device sentence self)))
    by now apply elem_of_run_calls.
  destruct (classify_cases device sentence self) as
    [(Hruns & _) | (outn & inn & ids & r' & Hruns & _)].
  - rewrite Hruns in Hmem. set_solver.
  - cbv zeta in Hruns. rewrite Hruns in Hmem |- *.
    apply list_elem_of_singleton in Hmem. now rewrite Hmem.
Qed.

(** The session's [run] call raised [e]: what the method does with it. *)
Lemma classify_run_raised device sentence self outs feed e :
  let o := classify_categories device sentence self in
  ERun outs feed (Raise e) ∈ trace o →
  if isinstance e [RuntimeError; InvalidArgument] then
    outcome o = Ok None
    ∧ ∃ key text, feed = {[ key := text ]}
        ∧ last (trace o) = Some (EPrint (ErrorWithShape (shape text) e))
        ∧ error_lines (trace o) = [EPrint (ErrorWithShape (shape text) e)]
  else outcome o = Raise e ∧ error_lines (trace o) = [].
Proof.
  intros o Hev. apply run_event_in_trace in Hev. fold o in Hev.
  destruct (classify_cases device sentence self) as
    [(Hruns & _) | (outn & inn & ids & r & Hruns & Hr)].
  - fold o in Hruns. congruence.
  - fold o in Hruns, Hr. cbv zeta in Hruns, Hr.
    rewrite Hruns in Hev. injection Hev as <- <- ->.
    destruct (isinstance e [RuntimeError; InvalidArgument]).
    + destruct Hr as (Hout & Herr & Hlast). split; [exact Hout|].
      exists inn, (session_input ids). simpl. auto.
    + destruct Hr as (Hout & Herr & _). auto.
Qed.

(** C8. When the session's [run] call raises an exception that the [except]
    block catches, [classify_categories] returns [None]; [None] is not a key
    of the label table; and [predict], on a constructed service and a body
    whose 'text' is that sentence, returns no response: the look-up
    [news_label[None]] raises a [KeyError], which leaves [predict] after the
    same calls and prints as [classify_categories] made. *)
Theorem predict_KeyError_on_inference_error device sentence self outs feed e :
  ERun outs feed (Raise e) ∈ trace (classify_categories device sentence self) →
  isinstance e [RuntimeError; InvalidArgument] = true →
  outcome (classify_categories device sentence self) = Ok None
  ∧ label_table !! (None : int_or_None) = None
  ∧ ∀ parsed_json,
      dict_get parsed_json "text" = Ok sentence →
      news_label self = Some label_table →
      (∃ msg, outcome (predict device parsed_json self) = Raise (Exn KeyError msg))
      ∧ trace (predict device parsed_json self)
        = trace (classify_categories device sentence self)
      ∧ final (predict device parsed_json self) = self.
Proof.
  intros Hev Hinst.
  pose proof (classify_run_raised device sentence self outs feed e Hev) as Hcaught.
  cbv zeta in Hcaught. rewrite Hinst in Hcaught.
  destruct Hcaught as (Hnone & _).
  split; [exact Hnone|]. split; [reflexivity|].
  intros parsed_json Hget Hlabels.
  rewrite (predict_run device parsed_json sentence label_table self Hget Hlabels).
  rewrite Hnone. unfold outcome, trace, final. simpl. eauto.
Qed.

Lemma bind_trace_prefix {A B} (m : M F A) (f : A → M F B) self :
  ∃ rest, trace (bind m f self) = trace (m self) ++ rest.
Proof.
  unfold bind. destruct (m self) as [[t self'] [x|e]].
  - destruct (f x self') as [[t' self''] r]. unfold trace. simpl. eauto.
  - exists []. unfold trace. simpl. now rewrite app_nil_r.
Qed.

Lemma classify_starts device x self :
  ∃ rest, trace (classify_categories device x self)
          = EPrint SetupPipeline :: ETokenizer x (tokenizer (artifacts self) x) :: rest.
Proof.
  unfold classify_categories.
  erewrite bind_Ok by reflexivity. cbn [fst].
  match goal with
  | |- context [trace (bind ?m ?f self)] =>
      destruct (bind_trace_prefix m f self) as [rest Hrest]; rewrite Hrest
  end.
  rewrite text_pipeline_run. unfold trace at 1 2. cbn [fst app].
  destruct (tokenizer (artifacts self) x) as [toks|e]; cbn [fst app]; eauto.
Qed.

(** C9. When the parsed body is a dict without the key 'text', on a
    constructed service: [predict] extracts [None]; the first call it makes
    on the artifacts is the tokenizer applied to [None]; and when the
    tokenizer raises on [None], that exception leaves [predict] right after
    that call, so that no category is returned. *)
Theorem predict_without_text device (m : gmap string json) self labels :
  m !! "text" = None →
  news_label self = Some labels →
  dict_get (JObj m) "text" = Ok JNull
  ∧ (∃ rest, trace (predict device (JObj m) self)
             = EPrint SetupPipeline
               :: ETokenizer JNull (tokenizer (artifacts self) JNull) :: rest)
  ∧ (∀ e, tokenizer (artifacts self) JNull = Raise e →
          predict device (JObj m) self
          = ([EPrint SetupPipeline; ETokenizer JNull (Raise e)], self, Raise e)).
Proof.
  intros Hm Hlabels.
  assert (Hget : dict_get (JObj m) "text" = Ok JNull) by (simpl; now rewrite Hm).
  split; [exact Hget|].
  rewrite (predict_run device (JObj m) JNull labels self Hget Hlabels).
  split; [apply classify_starts|].
  intros e He.
  unfold classify_categories, get_pipeline.
  cbv [bind print ret lift call artifacts_tokenizer]. cbn [fst snd].
  rewrite He. reflexivity.
Qed.

(** ** The label table and the service's state *)

(** C7. Construction binds [news_label] to the table 1 -> 'World',
    2 -> 'Sports', 3 -> 'Business', 4 -> 'Sci/Tec', whatever the object held
    before and without touching the artifacts; the keys of the table are
    exactly 1, 2, 3 and 4; and neither [classify_categories] nor [predict],
    on any input and from any state, changes the service object, so the
    table stays what construction made it. *)
Theorem news_label_fixed a old device x :
  news_label (final (__init__ (mkService a old))) = Some label_table
  ∧ artifacts (final (__init__ (mkService a old))) = a
  ∧ dom label_table = ({[ Some 1; Some 2; Some 3; Some 4 ]} : gset int_or_None)
  ∧ (∀ self, final (classify_categories device x self) = self)
  ∧ (∀ self, final (predict device x self) = self)
  ∧ (∀ self, news_label self = Some label_table →
       news_label (final (predict device x self)) = Some label_table
       ∧ news_label (final (classify_categories device x self)) = Some label_table).
Proof.
  split; [reflexivity|]. split; [reflexivity|].
  split; [unfold label_table; rewrite !dom_insert_L, dom_singleton_L; set_solver|].
  split; [apply read_only_classify_categories|].
  split; [apply read_only_predict|].
  intros self Hlabels.
  now rewrite read_only_predict, read_only_classify_categories.
Qed.

End Proofs.

(** ** The order of the notebook *)

Import Notebook.

(** C6. The statements that ran, ordered by the recorded execution counts,
    are the statements of the document in document order, less the one cell
    that was never run.  Their stages never go back: vocabulary and
    tokenizer, then the classifier (instantiated, weights loaded), then the
    export, then the check of the exported file, then the packing into the
    service, then the serving and container commands.  In particular the
    export comes before the check, and the check before every [pack], and
    every [pack] and the save before the first serving command. *)
Theorem notebook_linear_order :
  executed cells
  = List.filter (λ s, negb (bool_decide (s = BentomlServeNgrok))) (document_order cells)
  ∧ omap stage (executed cells) = [1; 2; 2; 2; 2; 3; 3; 4; 4; 5; 5; 5; 5; 5; 6; 6; 6]%nat
  ∧ nondecreasing (omap stage (executed cells)) = true
  ∧ nondecreasing (omap stage (document_order cells)) = true
  ∧ before GetTokenizerVocab InstantiateModel (executed cells) = true
  ∧ before InstantiateModel LoadStateDict (executed cells) = true
  ∧ before LoadStateDict OnnxExport (executed cells) = true
  ∧ before OnnxExport CheckModel (executed cells) = true
  ∧ before CheckModel (Pack "model") (executed cells) = true
  ∧ before CheckModel (Pack "tokenizer") (executed cells) = true
  ∧ before CheckModel (Pack "vocab") (executed cells) = true
  ∧ before (Pack "model") BentomlServe (executed cells) = true
  ∧ before (Pack "tokenizer") BentomlServe (executed cells) = true
  ∧ before (Pack "vocab") BentomlServe (executed cells) = true
  ∧ before Save BentomlServe (executed cells) = true
  ∧ before BentomlServe BentomlContainerize (executed cells) = true
  ∧ before BentomlContainerize DockerRun (executed cells) = true.
Proof. repeat split; vm_compute; reflexivity. Qed.

(** ** The definitions at work on the small service *)

Example demo_sports :
  outcome (predict (cuda_device 0) (Demo.request "the match won") Demo.service)
  = Ok (categories_response "Sports").
Proof. vm_compute. reflexivity. Qed.

Example demo_business :
  outcome (predict cpu_device (Demo.request "shares fell") Demo.service)
  = Ok (categories_response "Business").
Proof. vm_compute. reflexivity. Qed.

Example demo_argmax_first_of_ties : argmax_row [3; 7; 7; 1] = Ok 1%nat.
Proof. reflexivity. Qed.

Example demo_to_numpy_cuda_grad :
  to_numpy (mkTensor float32 [2%nat] [5; 6] (cuda_device 0) true)
  = Ok (mkArray float32 [2%nat] [5; 6]).
Proof. reflexivity. Qed.

Lemma demo_classifies :
  Classifies Demo.packed (JStr "the match won") ["the"; "match"; "won"] [2; 3; 7]
    [mkNodeArg "input" "tensor(int64)"] [mkNodeArg "output" "tensor(float)"]
    (mkNodeArg "input" "tensor(int64)") (mkNodeArg "output" "tensor(float)")
    ["CUDAExecutionProvider"; "CPUExecutionProvider"] [1; 2; 0; 0] [[[1; 2; 0; 0]]].
Proof.
  split; try (vm_compute; reflexivity).
  repeat constructor.
Defined.

(** C2, on the small service: three tokens, class 2. *)
Lemma classify_categories_steps_witness :
  Classifies Demo.packed (JStr "the match won") ["the"; "match"; "won"] [2; 3; 7]
    [mkNodeArg "input" "tensor(int64)"] [mkNodeArg "output" "tensor(float)"]
    (mkNodeArg "input" "tensor(int64)") (mkNodeArg "output" "tensor(float)")
    ["CUDAExecutionProvider"; "CPUExecutionProvider"] [1; 2; 0; 0] [[[1; 2; 0; 0]]]
  ∧ ([1; 2; 0; 0] : list Z) ≠ []
  ∧ (length ([1; 2; 0; 0]%Z : list Z) ≤ 4)%nat
  ∧ outcome (classify_categories (cuda_device 0) (JStr "the match won") Demo.service)
    = Ok (Some 2).
Proof.
  split; [exact demo_classifies|].
  split; [discriminate|].
  split; [simpl; lia|].
  destruct (classify_categories_steps (cuda_device 0) (JStr "the match won")
              Demo.service _ _ _ _ _ _ _ _ _ demo_classifies)
    as (k & Hk & _ & Hrun & _); [discriminate|simpl; lia|].
  rewrite Hrun. injection Hk as <-. reflexivity.
Defined.

(** C1 as amended, on the small service. *)
Lemma predict_returns_category_witness :
  ({[ "text" := JStr "the match won" ]} : gmap string json) !! "text"
  = Some (JStr "the match won")
  ∧ news_label Demo.service = Some label_table
  ∧ ∃ c, outcome (predict (cuda_device 0) (Demo.request "the match won") Demo.service)
         = Ok (categories_response c)
         ∧ c ∈ categories
         ∧ final (predict (cuda_device 0) (Demo.request "the match won") Demo.service)
           = Demo.service.
Proof.
  split; [reflexivity|]. split; [reflexivity|].
  apply (predict_returns_category (cuda_device 0) {[ "text" := JStr "the match won" ]}
           "the match won" Demo.service ["the"; "match"; "won"] [2; 3; 7]
           [mkNodeArg "input" "tensor(int64)"] [mkNodeArg "output" "tensor(float)"]
           (mkNodeArg "input" "tensor(int64)") (mkNodeArg "output" "tensor(float)")
           ["CUDAExecutionProvider"; "CPUExecutionProvider"] [1; 2; 0; 0]
           [[[1; 2; 0; 0]]]);
    [reflexivity|reflexivity|exact demo_classifies|discriminate|simpl; lia].
Defined.

(** C1 as stated fails: the empty sentence has no tokens, its tensor is of
    dtype float32, the session refuses it, and [predict] raises. *)
Lemma predict_category_counterexample :
  dict_get (Demo.request "") "text" = Ok (JStr "")
  ∧ news_label Demo.service = Some label_table
  ∧ outcome (predict (cuda_device 0) (Demo.request "") Demo.service)
    = Raise (Exn KeyError "None")
  ∧ ¬ ∃ c, outcome (predict (cuda_device 0) (Demo.request "") Demo.service)
           = Ok (categories_response c)
           ∧ c ∈ categories.
Proof.
  assert (E : outcome (predict (cuda_device 0) (Demo.request "") Demo.service)
              = Raise (Exn KeyError "None")) by (vm_compute; reflexivity).
  split; [reflexivity|]. split; [reflexivity|]. split; [exact E|].
  intros (c & Hc & _). rewrite E in Hc. discriminate.
Qed.

(** C8, on the small service and the empty sentence. *)
Lemma predict_KeyError_on_inference_error_witness :
  ERun ["output"] {[ "input" := session_input [] ]}
       (Raise (Exn InvalidArgument "Unexpected input data type"))
    ∈ trace (classify_categories (cuda_device 0) (JStr "") Demo.service)
  ∧ isinstance (Exn InvalidArgument "Unexpected input data type")
               [RuntimeError; InvalidArgument] = true
  ∧ outcome (classify_categories (cuda_device 0) (JStr "") Demo.service) = Ok None
  ∧ ∃ msg, outcome (predict (cuda_device 0) (Demo.request "") Demo.service)
           = Raise (Exn KeyError msg).
Proof.
  assert (Hev : ERun ["output"] {[ "input" := session_input [] ]}
                  (Raise (Exn InvalidArgument "Unexpected input data type"))
                ∈ trace (classify_categories (cuda_device 0) (JStr "") Demo.service)).
  { apply list_elem_of_In. vm_compute. do 6 right. left. reflexivity. }
  split; [exact Hev|]. split; [reflexivity|].
  destruct (predict_KeyError_on_inference_error (cuda_device 0) (JStr "") Demo.service
              _ _ _ Hev eq_refl) as (Hnone & _ & Hpredict).
  split; [exact Hnone|].
  destruct (Hpredict (Demo.request "")) as (Hkey & _); [reflexivity|reflexivity|].
  exact Hkey.
Defined.

(** C9, on the small service and an empty body. *)
Lemma predict_without_text_witness :
  (∅ : gmap string json) !! "text" = None
  ∧ news_label Demo.service = Some label_table
  ∧ predict (cuda_device 0) (JObj ∅) Demo.service
    = ([EPrint SetupPipeline;
        ETokenizer JNull (Raise (Exn AttributeError "object has no attribute 'lower'"))],
       Demo.service,
       Raise (Exn AttributeError "object has no attribute 'lower'")).
Proof.
  split; [reflexivity|]. split; [reflexivity|].
  destruct (predict_without_text (cuda_device 0) ∅ Demo.service label_table)
    as (_ & _ & Hraise); [reflexivity|reflexivity|].
  apply Hraise. reflexivity.
Defined.

(** * More of the code *)

Section Edges.
Context {F : Type} `{Float F}.
Implicit Types (self : OnnxService F) (t : list (event F)).

Lemma tokenizer_calls_app t1 t2 :
  tokenizer_calls (t1 ++ t2) = tokenizer_calls t1 ++ tokenizer_calls t2.
Proof. apply List.filter_app. Qed.

Lemma tokenizer_calls_cons (ev : event F) t :
  tokenizer_calls (ev :: t)
  = if is_tokenizer ev then ev :: tokenizer_calls t else tokenizer_calls t.
Proof. reflexivity. Qed.

Lemma tokenizer_calls_lookup_events (v : string → result Z) toks :
  tokenizer_calls (F:=F) (lookup_events v toks) = [].
Proof.
  induction toks as [|tok toks IH]; [reflexivity|].
  simpl. now destruct (v tok).
Qed.

Ltac filters_simpl :=
  unfold trace, outcome, final; cbn [fst snd app];
  repeat first
    [ rewrite run_calls_app | rewrite error_lines_app | rewrite tokenizer_calls_app
    | rewrite run_calls_lookup_events | rewrite error_lines_lookup_events
    | rewrite tokenizer_calls_lookup_events
    | rewrite run_calls_cons | rewrite error_lines_cons | rewrite tokenizer_calls_cons
    | progress cbn [is_run is_error_line is_tokenizer app fst snd] ].

(** Either an exception leaves [classify_categories] before the session is
    run, or every statement before the [try] block succeeded. *)
Lemma classify_prelude_cases device sentence self :
  let o := classify_categories device sentence self in
  (run_calls (trace o) = [] ∧ error_lines (trace o) = []
   ∧ tokenizer_calls (trace o)
     = [ETokenizer sentence (tokenizer (artifacts self) sentence)]
   ∧ ∃ e, outcome o = Raise e)
  ∨ (∃ toks ids inputs outputs inp out provs,
       tokenizer (artifacts self) sentence = Ok toks
       ∧ Forall2 (λ tok i, vocab (artifacts self) tok = Ok i) toks ids
       ∧ forallb in_int64 ids = true
       ∧ get_inputs (model (artifacts self)) = Ok inputs
       ∧ index0 inputs = Ok inp
       ∧ get_outputs (model (artifacts self)) = Ok outputs
       ∧ index0 outputs = Ok out
       ∧ get_providers (model (artifacts self)) = Ok provs).
Proof.
  intros o. subst o.
  unfold classify_categories, get_pipeline.
  cbv [bind print ret lift call artifacts_tokenizer try_except raise]. cbn [fst snd].
  destruct (tokenizer (artifacts self) sentence) as [toks|e] eqn:Htok;
    [|left; filters_simpl; eauto 10].
  rewrite for_list_vocab.
  destruct (lookup_all (vocab (artifacts self)) toks) as [ids|e] eqn:Hids;
    [|left; filters_simpl; eauto 10].
  destruct (torch_tensor ids) as [tensor|e] eqn:Ht;
    [|left; filters_simpl; eauto 10].
  apply (torch_tensor_to_numpy device) in Ht as [Hint ->].
  destruct (get_inputs (model (artifacts self))) as [inputs|e] eqn:Hin;
    [|left; filters_simpl; eauto 10].
  destruct (index0 inputs) as [inp|e] eqn:Hin0; [|left; filters_simpl; eauto 10].
  destruct (get_outputs (model (artifacts self))) as [outputs|e] eqn:Hout;
    [|left; filters_simpl; eauto 10].
  destruct (index0 outputs) as [out|e] eqn:Hout0; [|left; filters_simpl; eauto 10].
  destruct (get_providers (model (artifacts self))) as [provs|e] eqn:Hprov;
    [|left; filters_simpl; eauto 10].
  right. exists toks, ids, inputs, outputs, inp, out, provs.
  apply lookup_all_Ok in Hids. auto 10.
Qed.

(** When every statement before the [try] block succeeds, the run of
    [classify_categories] is decided by the result of the session's [run]. *)
Lemma classify_reaches_run device sentence self toks ids inputs outputs inp out provs :
  tokenizer (artifacts self) sentence = Ok toks →
  Forall2 (λ tok i, vocab (artifacts self) tok = Ok i) toks ids →
  forallb in_int64 ids = true →
  get_inputs (model (artifacts self)) = Ok inputs →
  index0 inputs = Ok inp →
  get_outputs (model (artifacts self)) = Ok outputs →
  index0 outputs = Ok out →
  get_providers (model (artifacts self)) = Ok provs →
  let feed : gmap string (ndarray Z) := {[ name inp := session_input ids ]} in
  let r := run (model (artifacts self)) [name out] feed in
  let pre := EPrint SetupPipeline :: ETokenizer sentence (Ok toks)
             :: zip_with (λ tok i, EVocab tok (Ok i)) toks ids
             ++ [EGetInputs (Ok inputs); EGetOutputs (Ok outputs);
                 EGetProviders (Ok provs); EPrint (Providers provs);
                 ERun [name out] feed r] in
  classify_categories device sentence self
  = match r with
    | Ok outs =>
        (pre, self,
         result_bind (index0 outs) (λ m,
         result_bind (argmax1 m) (λ am,
         result_bind (item am) (λ i, Ok (Some (i + 1))))))
    | Raise e =>
        if isinstance e [RuntimeError; InvalidArgument] then
          (pre ++ [EPrint (ErrorWithShape [length ids] e)], self, Ok None)
        else (pre, self, Raise e)
    end.
Proof.
  intros Htok Hids Hint Hin Hin0 Hout Hout0 Hprov feed r pre. subst pre r feed.
  unfold classify_categories, get_pipeline.
  cbv [bind print ret lift call artifacts_tokenizer try_except raise]. cbn [fst snd].
  rewrite Htok, for_list_vocab.
  rewrite (lookup_events_Ok _ _ _ Hids).
  apply lookup_all_Ok in Hids. rewrite Hids.
  destruct (torch_tensor ids) as [tensor|e] eqn:Ht.
  2: { unfold torch_tensor in Ht. rewrite Hint in Ht. discriminate. }
  apply (torch_tensor_to_numpy device) in Ht as [_ ->].
  rewrite Hin, Hin0, Hout, Hout0, Hprov.
  rewrite lookup_singleton_eq.
  destruct (run _ _ _) as [outs|e].
  - destruct (index0 outs) as [m|e] eqn:Hm; simpl.
    2: { apply index0_Raise in Hm. destruct e as [c msg]; simpl in Hm; subst c.
         reflexivity. }
    destruct (argmax1 m) as [am|e] eqn:Ham; simpl.
    2: { apply argmax1_Raise in Ham. destruct e as [c msg]; simpl in Ham; subst c.
         reflexivity. }
    destruct (item am) as [i|e] eqn:Hi; simpl.
    2: { apply item_Raise in Hi. destruct e as [c msg]; simpl in Hi; subst c.
         reflexivity. }
    reflexivity.
  - destruct (isinstance e [RuntimeError; InvalidArgument]); simpl.
    + now rewrite <- !app_assoc.
    + reflexivity.
Qed.

Lemma run_calls_vocab_ok (toks : list string) (ids : list Z) :
  run_calls (F:=F) (zip_with (λ tok i, EVocab tok (Ok i)) toks ids) = [].
Proof.
  revert ids. induction toks as [|tok toks IH]; intros [|i ids]; try reflexivity.
  simpl. apply IH.
Qed.

Lemma tokenizer_calls_vocab_ok (toks : list string) (ids : list Z) :
  tokenizer_calls (F:=F) (zip_with (λ tok i, EVocab tok (Ok i)) toks ids) = [].
Proof.
  revert ids. induction toks as [|tok toks IH]; intros [|i ids]; try reflexivity.
  simpl. apply IH.
Qed.

Lemma error_lines_vocab_ok (toks : list string) (ids : list Z) :
  error_lines (F:=F) (zip_with (λ tok i, EVocab tok (Ok i)) toks ids) = [].
Proof.
  revert ids. induction toks as [|tok toks IH]; intros [|i ids]; try reflexivity.
  simpl. apply IH.
Qed.

Ltac exact_trace_simpl :=
  unfold trace, outcome, final; cbn [fst snd app];
  repeat first
    [ rewrite run_calls_app | rewrite error_lines_app | rewrite tokenizer_calls_app
    | rewrite run_calls_vocab_ok | rewrite error_lines_vocab_ok
    | rewrite tokenizer_calls_vocab_ok
    | rewrite run_calls_cons | rewrite error_lines_cons | rewrite tokenizer_calls_cons
    | progress cbn [is_run is_error_line is_tokenizer app fst snd] ].

(** The calls of one run of [classify_categories]: one tokenizer call, on
    the sentence, and at most one [run]. *)
Lemma classify_calls device sentence self :
  let o := classify_categories device sentence self in
  tokenizer_calls (trace o) = [ETokenizer sentence (tokenizer (artifacts self) sentence)]
  ∧ (length (run_calls (trace o)) ≤ 1)%nat
  ∧ (∀ v, outcome o = Ok v → length (run_calls (trace o)) = 1%nat).
Proof.
  intros o.
  destruct (classify_prelude_cases device sentence self) as
    [(Hruns & _ & Htok & e & Hout)
    |(toks & ids & inputs & outputs & inp & out & provs
      & Htok & Hids & Hint & Hin & Hin0 & Hout & Hout0 & Hprov)].
  - fold o in Hruns, Htok, Hout. rewrite Hruns, Htok, Hout. simpl.
    split; [reflexivity|]. split; [lia|]. discriminate.
  - subst o.
    rewrite (classify_reaches_run device sentence self _ _ _ _ _ _ _
               Htok Hids Hint Hin Hin0 Hout Hout0 Hprov).
    cbv zeta. rewrite Htok.
    destruct (run _ _ _) as [outs|e];
      [|destruct (isinstance e [RuntimeError; InvalidArgument])];
      exact_trace_simpl; auto.
Qed.

(** A [run] call in the trace: what came before it and what it was given. *)
Lemma classify_run_inv device sentence self outs feed r :
  ERun outs feed r ∈ trace (classify_categories device sentence self) →
  ∃ toks ids inputs outputs inp out provs,
    tokenizer (artifacts self) sentence = Ok toks
    ∧ Forall2 (λ tok i, vocab (artifacts self) tok = Ok i) toks ids
    ∧ forallb in_int64 ids = true
    ∧ get_inputs (model (artifacts self)) = Ok inputs
    ∧ index0 inputs = Ok inp
    ∧ get_outputs (model (artifacts self)) = Ok outputs
    ∧ index0 outputs = Ok out
    ∧ get_providers (model (artifacts self)) = Ok provs
    ∧ outs = [name out]
    ∧ feed = {[ name inp := session_input ids ]}
    ∧ r = run (model (artifacts self)) outs feed.
Proof.
  intros Hev.
  assert (Hmem : ERun outs feed r
                 ∈ run_calls (trace (classify_categories device sentence self)))
    by now apply elem_of_run_calls.
  clear Hev.
  destruct (classify_prelude_cases device sentence self) as
    [(Hruns & _)
    |(toks & ids & inputs & outputs & inp & out & provs
      & Htok & Hids & Hint & Hin & Hin0 & Hout & Hout0 & Hprov)].
  - rewrite Hruns in Hmem. set_solver.
  - exists toks, ids, inputs, outputs, inp, out, provs.
    do 8 (split; [assumption|]).
    rewrite (classify_reaches_run device sentence self _ _ _ _ _ _ _
               Htok Hids Hint Hin Hin0 Hout Hout0 Hprov) in Hmem.
    cbv zeta in Hmem.
    assert (Hone : ERun outs feed r
                   ∈ [ERun [name out] {[name inp := session_input ids]}
                        (run (model (artifacts self)) [name out]
                           {[name inp := session_input ids]})]).
    { revert Hmem.
      destruct (run _ _ _) as [res|e];
        [|destruct (isinstance e [RuntimeError; InvalidArgument])];
        exact_trace_simpl; rewrite ?app_nil_r; auto. }
    apply list_elem_of_singleton in Hone. injection Hone as -> -> ->. auto.
Qed.

(** C3. When every statement before the [try] block succeeds, the result [r]
    of the session's [run] call decides the run of [classify_categories].
    If [r] is an exception that is an instance of [RuntimeError] or of
    [InvalidArgument], the method catches it, prints as its last line the
    error line with the shape of the array it fed, and returns [None] (no
    category).  If [r] is any other exception, the exception leaves the
    method and nothing more is printed.  If [r] is a value, the method
    prints nothing more, does not return [None], and an exception raised by
    the rest of the [try] block is not caught.  So [None] is returned if and
    only if the [run] call raised a [RuntimeError] or an [InvalidArgument];
    and on this service, for any sentence, [None] is only ever returned
    after a [run] call that raised such an exception. *)
Theorem classify_categories_catches device sentence self toks ids inputs outputs
    inp out provs :
  tokenizer (artifacts self) sentence = Ok toks →
  Forall2 (λ tok i, vocab (artifacts self) tok = Ok i) toks ids →
  forallb in_int64 ids = true →
  get_inputs (model (artifacts self)) = Ok inputs →
  index0 inputs = Ok inp →
  get_outputs (model (artifacts self)) = Ok outputs →
  index0 outputs = Ok out →
  get_providers (model (artifacts self)) = Ok provs →
  let feed : gmap string (ndarray Z) := {[ name inp := session_input ids ]} in
  let r := run (model (artifacts self)) [name out] feed in
  let pre := EPrint SetupPipeline :: ETokenizer sentence (Ok toks)
             :: zip_with (λ tok i, EVocab tok (Ok i)) toks ids
             ++ [EGetInputs (Ok inputs); EGetOutputs (Ok outputs);
                 EGetProviders (Ok provs); EPrint (Providers provs);
                 ERun [name out] feed r] in
  let o := classify_categories device sentence self in
  (∀ e, r = Raise e → isinstance e [RuntimeError; InvalidArgument] = true →
        o = (pre ++ [EPrint (ErrorWithShape (shape (session_input ids)) e)],
             self, Ok None))
  ∧ (∀ e, r = Raise e → isinstance e [RuntimeError; InvalidArgument] = false →
          o = (pre, self, Raise e))
  ∧ (∀ outs, r = Ok outs →
       trace o = pre ∧ final o = self ∧ outcome o ≠ Ok None
       ∧ ∀ e, outcome o = Raise e →
              isinstance e [RuntimeError; InvalidArgument] = false)
  ∧ (outcome o = Ok None
     ↔ ∃ e, r = Raise e ∧ isinstance e [RuntimeError; InvalidArgument] = true)
  ∧ (∀ x, outcome (classify_categories device x self) = Ok None →
          ∃ outs' feed' e,
            run (model (artifacts self)) outs' feed' = Raise e
            ∧ isinstance e [RuntimeError; InvalidArgument] = true
            ∧ ERun outs' feed' (Raise e) ∈ trace (classify_categories device x self)).
Proof.
  intros Htok Hids Hint Hin Hin0 Hout Hout0 Hprov feed r pre o.
  assert (Ho : o = match r with
                   | Ok outs =>
                       (pre, self,
                        result_bind (index0 outs) (λ m,
                        result_bind (argmax1 m) (λ am,
                        result_bind (item am) (λ i, Ok (Some (i + 1))))))
                   | Raise e =>
                       if isinstance e [RuntimeError; InvalidArgument] then
                         (pre ++ [EPrint (ErrorWithShape [length ids] e)], self, Ok None)
                       else (pre, self, Raise e)
                   end)
    by exact (classify_reaches_run device sentence self _ _ _ _ _ _ _
                Htok Hids Hint Hin Hin0 Hout Hout0 Hprov).
  clearbody o r. subst o.
  split; [|split; [|split; [|split]]].
  - intros e -> Hinst. now rewrite Hinst.
  - intros e -> Hinst. now rewrite Hinst.
  - intros outs ->. unfold trace, final, outcome. simpl.
    split; [reflexivity|]. split; [reflexivity|].
    split; [apply after_run_not_None|].
    intros e He.
    destruct (index0 outs) as [m|e1] eqn:Hm; simpl in He.
    2: { injection He as <-. apply index0_Raise in Hm.
         destruct e1 as [c msg]; simpl in Hm; subst c. reflexivity. }
    destruct (argmax1 m) as [am|e1] eqn:Ham; simpl in He.
    2: { injection He as <-. apply argmax1_Raise in Ham.
         destruct e1 as [c msg]; simpl in Ham; subst c. reflexivity. }
    destruct (item am) as [i|e1] eqn:Hi; simpl in He; [discriminate|].
    injection He as <-. apply item_Raise in Hi.
    destruct e1 as [c msg]; simpl in Hi; subst c. reflexivity.
  - destruct r as [outs|e].
    + unfold outcome. simpl. split.
      * intros Hnone. now apply after_run_not_None in Hnone.
      * intros (e & [=] & _).
    + destruct (isinstance e [RuntimeError; InvalidArgument]) eqn:Hinst;
        unfold outcome; cbn [snd].
      * split; eauto.
      * split; [discriminate|]. intros (e' & [= <-] & Hinst'). congruence.
  - intros x Hnone.
    destruct (classify_cases device x self) as
      [(_ & _ & e & Hraise) | (outn & inn & ids' & r' & Hruns & Hr')];
      [congruence|].
    cbv zeta in Hruns, Hr'.
    assert (Hmem : ERun [outn] {[inn := session_input ids']} r'
                   ∈ trace (classify_categories device x self)).
    { apply (elem_of_run_calls (ERun [outn] {[inn := session_input ids']} r')).
      rewrite Hruns. now apply list_elem_of_singleton. }
    destruct (classify_run_inv _ _ _ _ _ _ Hmem) as
      (toks' & ids'' & inputs' & outputs' & inp' & out' & provs'
       & _ & _ & _ & _ & _ & _ & _ & _ & _ & _ & Hr).
    destruct r' as [outs'|e].
    + destruct Hr' as (_ & _ & Hout'). rewrite Hout' in Hnone.
      now apply after_run_not_None in Hnone.
    + exists [outn], {[inn := session_input ids']}, e.
      destruct (isinstance e [RuntimeError; InvalidArgument]) eqn:Hinst.
      * auto.
      * destruct Hr' as (Hraise & _). congruence.
Qed.

(** ** After the session has answered *)

Lemma argmax_rows_length (m : matrix F) am :
  argmax_rows m = Ok am → length am = length m.
Proof.
  revert am. induction m as [|row m IH]; intros am; simpl.
  - now intros [= <-].
  - destruct (argmax_row row) as [i|e]; simpl; [|discriminate].
    destruct (argmax_rows m) as [js|e]; simpl; [|discriminate].
    intros [= <-]. simpl. f_equal. now apply IH.
Qed.

Lemma argmax_row_Ok_lt (row : list F) pos :
  argmax_row row = Ok pos → (pos < length row)%nat.
Proof.
  intros Hpos. destruct (argmax_row_lt row) as (k & Hk & Hlt).
  - intros ->. discriminate.
  - congruence.
Qed.

Lemma after_run_cases (outs : list (matrix F)) :
  let res := result_bind (index0 outs) (λ m,
             result_bind (argmax1 m) (λ am,
             result_bind (item am) (λ i, Ok (Some (i + 1))))) in
  match outs with
  | [] => ∃ e, res = Raise e ∧ exn_class e = IndexError
  | [row] :: _ =>
      match argmax_row row with
      | Ok pos => res = Ok (Some (Z.of_nat pos + 1))
      | Raise e => res = Raise e ∧ exn_class e = ValueError
      end
  | _ :: _ => ∃ e, res = Raise e ∧ exn_class e = ValueError
  end.
Proof.
  intros res. subst res. destruct outs as [|m rest]; simpl; [eauto|].
  destruct m as [|row [|row2 m]].
  - simpl. eauto.
  - unfold argmax1. simpl. destruct (argmax_row row) as [pos|e] eqn:Hrow; simpl.
    + reflexivity.
    + split; [reflexivity|]. destruct row; [|discriminate].
      injection Hrow as <-. reflexivity.
  - destruct (argmax1 (row :: row2 :: m)) as [am|e] eqn:Ham; simpl.
    + apply argmax_rows_length in Ham. destruct am as [|i [|j am]]; simpl in *; eauto; lia.
    + apply argmax1_Raise in Ham. eauto.
Qed.

(** X10. When the session's [run] call returns, [classify_categories] never
    returns [None] and prints no error line: with no output at all an
    [IndexError] leaves it; with a first output of exactly one row it returns
    the position of that row's maximum plus one (a [ValueError] leaves it
    when the row is empty); with a first output of no row or of several rows
    a [ValueError] leaves it.  None of these exceptions is caught. *)
Theorem classify_after_run_returns device sentence self outs feed res :
  ERun outs feed (Ok res) ∈ trace (classify_categories device sentence self) →
  error_lines (trace (classify_categories device sentence self)) = []
  ∧ outcome (classify_categories device sentence self) ≠ Ok None
  ∧ match res with
    | [] => ∃ e, outcome (classify_categories device sentence self) = Raise e
                 ∧ exn_class e = IndexError
    | [row] :: _ =>
        match argmax_row row with
        | Ok pos => outcome (classify_categories device sentence self)
                    = Ok (Some (Z.of_nat pos + 1))
        | Raise e => outcome (classify_categories device sentence self) = Raise e
                     ∧ exn_class e = ValueError
        end
    | _ :: _ => ∃ e, outcome (classify_categories device sentence self) = Raise e
                     ∧ exn_class e = ValueError
    end.
Proof.
  intros Hev.
  destruct (classify_run_inv _ _ _ _ _ _ Hev) as
    (toks & ids & inputs & outputs & inp & out & provs
     & Htok & Hids & Hint & Hin & Hin0 & Hout & Hout0 & Hprov & -> & -> & Hres).
  rewrite (classify_reaches_run device sentence self _ _ _ _ _ _ _
             Htok Hids Hint Hin Hin0 Hout Hout0 Hprov).
  cbv zeta. rewrite <- Hres.
  split; [exact_trace_simpl; reflexivity|].
  split; [unfold outcome; simpl; apply after_run_not_None|].
  unfold outcome. simpl. apply after_run_cases.
Qed.

(** X3. A category that [classify_categories] returns is never zero or
    negative and never beyond the width of the session's output: it is the
    position of the maximum of the single row of the first output, counted
    from one. *)
Theorem classify_category_in_range device sentence self (k : Z) :
  outcome (classify_categories device sentence self) = Ok (Some k) →
  ∃ outs feed row rest pos,
    ERun outs feed (Ok ([row] :: rest)) ∈ trace (classify_categories device sentence self)
    ∧ argmax_row row = Ok pos
    ∧ k = Z.of_nat pos + 1
    ∧ 1 ≤ k ≤ Z.of_nat (length row).
Proof.
  intros Hsome.
  destruct (classify_prelude_cases device sentence self) as
    [(_ & _ & _ & e & Hout)
    |(toks & ids & inputs & outputs & inp & out & provs
      & Htok & Hids & Hint & Hin & Hin0 & Hout & Hout0 & Hprov)]; [congruence|].
  revert Hsome.
  rewrite (classify_reaches_run device sentence self _ _ _ _ _ _ _
             Htok Hids Hint Hin Hin0 Hout Hout0 Hprov).
  cbv zeta.
  destruct (run _ _ _) as [res|e] eqn:Hrun.
  - unfold outcome, trace. simpl. intros Hsome.
    pose proof (after_run_cases res) as Hcases. cbv zeta in Hcases.
    rewrite Hsome in Hcases.
    destruct res as [|[|row [|row2 m]] rest];
      try (destruct Hcases as (e & [=] & _)).
    destruct (argmax_row row) as [pos|e] eqn:Hpos; [|destruct Hcases as [[=] _]].
    injection Hcases as ->.
    exists [name out], {[name inp := session_input ids]}, row, rest, pos.
    split; [|split; [exact Hpos|split; [reflexivity|]]].
    + apply elem_of_cons. right. apply elem_of_cons. right.
      apply elem_of_app. right. set_solver.
    + apply argmax_row_Ok_lt in Hpos. lia.
  - destruct (isinstance e [RuntimeError; InvalidArgument]); discriminate.
Qed.

(** X6. Every [run] call of [classify_categories] asks for exactly one
    output, the first the session declares, and feeds exactly one array,
    under the name of the first declared input: the vocabulary indices of
    the sentence's tokens in order, of shape (number of tokens,), of dtype
    int64 unless there is no token, when it is float32. *)
Theorem session_feed device sentence self outs feed r :
  ERun outs feed r ∈ trace (classify_categories device sentence self) →
  ∃ toks ids inp out inputs outputs,
    tokenizer (artifacts self) sentence = Ok toks
    ∧ Forall2 (λ tok i, vocab (artifacts self) tok = Ok i) toks ids
    ∧ get_inputs (model (artifacts self)) = Ok (inp :: inputs)
    ∧ get_outputs (model (artifacts self)) = Ok (out :: outputs)
    ∧ outs = [name out]
    ∧ feed = {[ name inp := mkArray (if toks is [] then float32 else int64)
                                    [length toks] ids ]}
    ∧ r = run (model (artifacts self)) outs feed.
Proof.
  intros Hev.
  destruct (classify_run_inv _ _ _ _ _ _ Hev) as
    (toks & ids & inputs & outputs & inp & out & provs
     & Htok & Hids & Hint & Hin & Hin0 & Hout & Hout0 & Hprov & -> & -> & Hres).
  destruct inputs as [|inp' inputs]; [discriminate|]. injection Hin0 as ->.
  destruct outputs as [|out' outputs]; [discriminate|]. injection Hout0 as ->.
  exists toks, ids, inp, out, inputs, outputs.
  do 5 (split; [done|]). split; [|exact Hres].
  unfold session_input. rewrite (Forall2_length _ _ _ Hids).
  now destruct Hids.
Qed.

(** X4. One call of [predict], whatever the body and the state of the
    service, calls the tokenizer at most once and runs the session at most
    once; the tokenizer is only ever applied to the value of the body's
    'text' key; and [classify_categories] returns (a category or [None])
    only after exactly one [run] call. *)
Theorem predict_calls_once device parsed_json self :
  (length (tokenizer_calls (trace (predict device parsed_json self))) ≤ 1)%nat
  ∧ (length (run_calls (trace (predict device parsed_json self))) ≤ 1)%nat
  ∧ (∀ x r, ETokenizer x r ∈ trace (predict device parsed_json self) →
            dict_get parsed_json "text" = Ok x)
  ∧ (∀ sentence v,
       outcome (classify_categories device sentence self) = Ok v →
       length (run_calls (trace (classify_categories device sentence self))) = 1%nat).
Proof.
  assert (Htrace : trace (predict device parsed_json self) = []
                   ∨ ∃ sentence, dict_get parsed_json "text" = Ok sentence
                       ∧ trace (predict device parsed_json self)
                         = trace (classify_categories device sentence self)).
  { unfold predict. cbv [bind lift getattr ret].
    destruct (dict_get parsed_json "text") as [sentence|e]; [|now left].
    destruct (news_label self) as [labels|]; [|now left].
    right. exists sentence. split; [reflexivity|].
    destruct (classify_categories device sentence self) as [[t self'] [c|e]];
      [|reflexivity].
    destruct (dict_getitem labels c); unfold trace; simpl; now rewrite ?app_nil_r. }
  split; [|split; [|split]].
  - destruct Htrace as [->|(sentence & _ & ->)]; [simpl; lia|].
    destruct (classify_calls device sentence self) as (-> & _). simpl. lia.
  - destruct Htrace as [->|(sentence & _ & ->)]; [simpl; lia|].
    apply classify_calls.
  - intros x r Hev. destruct Htrace as [Ht|(sentence & Hget & Ht)];
      rewrite Ht in Hev; [set_solver|].
    assert (Hmem : ETokenizer x r
                   ∈ tokenizer_calls (trace (classify_categories device sentence self))).
    { unfold tokenizer_calls. apply list_elem_of_In, List.filter_In.
      split; [now apply list_elem_of_In|reflexivity]. }
    destruct (classify_calls device sentence self) as (Hcalls & _).
    rewrite Hcalls in Hmem. apply list_elem_of_singleton in Hmem.
    injection Hmem as -> _. exact Hget.
  - intros sentence v. apply classify_calls.
Qed.

(** ** What [predict] answers *)

Lemma label_table_values (k : int_or_None) v :
  label_table !! k = Some v →
  v ∈ categories ∧ ∃ i, k = Some i ∧ 1 ≤ i ≤ 4.
Proof.
  unfold label_table, categories.
  rewrite !lookup_insert_Some, lookup_singleton_Some.
  intros [[<- <-]|[_ [[<- <-]|[_ [[<- <-]|[_ [<- <-]]]]]]];
    (split; [set_solver|eexists; split; [reflexivity|lia]]).
Qed.

(** X1. On a constructed service, whatever the body and whatever the
    artifacts do: when [predict] returns a response at all, the response is
    {'categories': c} with [c] one of the four categories. *)
Theorem predict_response_is_category device parsed_json self resp :
  news_label self = Some label_table →
  outcome (predict device parsed_json self) = Ok resp →
  ∃ c, resp = categories_response c ∧ c ∈ categories.
Proof.
  intros Hlabels.
  destruct (dict_get parsed_json "text") as [sentence|e] eqn:Hget.
  - rewrite (predict_run device parsed_json sentence label_table self Hget Hlabels).
    unfold outcome at 1. simpl.
    destruct (outcome (classify_categories device sentence self)) as [category|e];
      simpl; [|discriminate].
    unfold dict_getitem.
    destruct (label_table !! category) as [label|] eqn:Hlabel; simpl; [|discriminate].
    intros [= <-]. exists label. split; [reflexivity|].
    now apply label_table_values in Hlabel.
  - unfold predict. cbv [bind lift]. rewrite Hget. discriminate.
Qed.

(** X2. A body that is not a dict (null, a boolean, a number, a string, a
    list) has no [get]: [predict] raises [AttributeError] before it prints
    anything or calls any artifact, and leaves the service unchanged. *)
Theorem predict_rejects_non_dict device parsed_json self :
  (∀ m, parsed_json ≠ JObj m) →
  ∃ msg, predict device parsed_json self = ([], self, Raise (Exn AttributeError msg)).
Proof.
  intros Hnot. unfold predict. cbv [bind lift].
  destruct parsed_json; simpl; eauto. now destruct (Hnot m).
Qed.

(** X11. A session of a graph with more classes than labels: when the
    maximum of the output row is at position four or beyond, the number
    [classify_categories] returns is no key of the label table and [predict]
    raises [KeyError]. *)
Theorem predict_KeyError_beyond_labels device (m : gmap string json) sentence self
    toks ids inputs outputs inp out provs row outs pos :
  m !! "text" = Some sentence →
  news_label self = Some label_table →
  Classifies (artifacts self) sentence toks ids inputs outputs inp out provs row outs →
  argmax_row row = Ok pos →
  (4 ≤ pos)%nat →
  outcome (classify_categories device sentence self) = Ok (Some (Z.of_nat pos + 1))
  ∧ ∃ msg, outcome (predict device (JObj m) self) = Raise (Exn KeyError msg).
Proof.
  intros Hm Hlabels Hcl Hpos Hwide.
  pose proof (classify_success device _ _ _ _ _ _ _ _ _ _ _ _ Hcl Hpos) as Hrun.
  split; [now rewrite Hrun|].
  rewrite (predict_run device (JObj m) sentence label_table self);
    [|simpl; now rewrite Hm|exact Hlabels].
  rewrite Hrun. unfold outcome, dict_getitem. simpl.
  destruct (label_table !! Some (Z.of_nat pos + 1)) as [label|] eqn:Hlabel.
  - apply label_table_values in Hlabel as (_ & i & [= <-] & Hi). lia.
  - simpl. eauto.
Qed.

(** X12. The label pipeline that [get_pipeline] returns maps the labels 1
    to 4 of the table to the positions 0 to 3, and [classify_categories]
    decodes what it encodes: applied to the category that is returned, it
    gives back the position of the maximum of the output row. *)
Theorem label_pipeline_inverts_category device sentence self
    toks ids inputs outputs inp out provs row outs pos :
  Classifies (artifacts self) sentence toks ids inputs outputs inp out provs row outs →
  argmax_row row = Ok pos →
  ∃ text_pipeline label_pipeline category,
    outcome (get_pipeline artifacts_tokenizer artifacts_vocab self)
    = Ok (text_pipeline, label_pipeline)
    ∧ outcome (classify_categories device sentence self) = Ok (Some category)
    ∧ label_pipeline category = Z.of_nat pos
    ∧ (∀ label, label_pipeline label + 1 = label)
    ∧ (∀ label, Some label ∈ dom label_table → 0 ≤ label_pipeline label ≤ 3).
Proof.
  intros Hcl Hpos.
  eexists _, _, _. split; [reflexivity|].
  split; [now rewrite (classify_success device _ _ _ _ _ _ _ _ _ _ _ _ Hcl Hpos)|].
  split; [lia|]. split; [intros label; lia|].
  intros label [v Hv]%elem_of_dom.
  apply label_table_values in Hv as (_ & i & [= <-] & Hi). lia.
Qed.

(** ** Exceptions before the [try] block *)

(** X5. The device does not matter: on 'cuda:0' and on 'cpu' alike,
    [classify_categories] and [predict] make the same calls with the same
    arguments, print the same lines and end the same way, because [to_numpy]
    brings the tensor back to host memory. *)
Theorem device_independent d1 d2 sentence parsed_json self :
  classify_categories d1 sentence self = classify_categories d2 sentence self
  ∧ predict d1 parsed_json self = predict d2 parsed_json self.
Proof.
  assert (Hc : ∀ x, classify_categories d1 x self = classify_categories d2 x self).
  { intros x. unfold classify_categories, get_pipeline.
    cbv [bind print ret lift call artifacts_tokenizer]. cbn [fst snd].
    destruct (tokenizer (artifacts self) x) as [toks|e]; [|reflexivity].
    rewrite for_list_vocab.
    destruct (lookup_all (vocab (artifacts self)) toks) as [ids|e]; [|reflexivity].
    destruct (torch_tensor ids) as [tensor|e] eqn:Ht; [|reflexivity].
    rewrite (proj2 (torch_tensor_to_numpy d1 _ _ Ht)).
    rewrite (proj2 (torch_tensor_to_numpy d2 _ _ Ht)).
    reflexivity. }
  split; [apply Hc|].
  unfold predict. cbv [bind lift getattr ret].
  destruct (dict_get parsed_json "text") as [x|e]; [|reflexivity].
  destruct (news_label self) as [labels|]; [|reflexivity].
  now rewrite Hc.
Qed.

Lemma lookup_fails (v : string → result Z) pre tok post ids e :
  Forall2 (λ tok i, v tok = Ok i) pre ids →
  v tok = Raise e →
  lookup_all v (pre ++ tok :: post) = Raise e
  ∧ lookup_events (F:=F) v (pre ++ tok :: post)
    = zip_with (λ tok i, EVocab tok (Ok i)) pre ids ++ [EVocab tok (Raise e)].
Proof.
  intros Hpre Htok. induction Hpre as [|tok' i pre ids Hv _ [IH1 IH2]]; simpl.
  - now rewrite Htok.
  - rewrite Hv, IH1, IH2. auto.
Qed.

(** X7. A vocabulary look-up that raises ends the list comprehension and
    the method: the tokens before it have been looked up in order, the
    tokens after it never are, the session is not asked anything, and the
    exception leaves [classify_categories], whatever its class. *)
Theorem vocab_error_aborts device sentence self pre tok post ids e :
  tokenizer (artifacts self) sentence = Ok (pre ++ tok :: post) →
  Forall2 (λ tok i, vocab (artifacts self) tok = Ok i) pre ids →
  vocab (artifacts self) tok = Raise e →
  classify_categories device sentence self
  = (EPrint SetupPipeline :: ETokenizer sentence (Ok (pre ++ tok :: post))
       :: zip_with (λ tok i, EVocab tok (Ok i)) pre ids ++ [EVocab tok (Raise e)],
     self, Raise e).
Proof.
  intros Htok Hpre He.
  destruct (lookup_fails (vocab (artifacts self)) pre tok post ids e Hpre He)
    as [Hall Hevents].
  unfold classify_categories, get_pipeline.
  cbv [bind print ret lift call artifacts_tokenizer]. cbn [fst snd].
  rewrite Htok, for_list_vocab, Hall, Hevents. reflexivity.
Qed.

(** X8. An index that does not fit 64 bits makes [torch.tensor] raise a
    [RuntimeError]; the call is before the [try] block, so the exception is
    not caught although [except] names its class: it leaves
    [classify_categories] after the look-ups, before the session is asked
    anything. *)
Theorem index_overflow_not_caught device sentence self toks ids :
  tokenizer (artifacts self) sentence = Ok toks →
  Forall2 (λ tok i, vocab (artifacts self) tok = Ok i) toks ids →
  forallb in_int64 ids = false →
  ∃ e, classify_categories device sentence self
       = (EPrint SetupPipeline :: ETokenizer sentence (Ok toks)
            :: zip_with (λ tok i, EVocab tok (Ok i)) toks ids,
          self, Raise e)
       ∧ isinstance e [RuntimeError; InvalidArgument] = true.
Proof.
  intros Htok Hids Hbig.
  unfold classify_categories, get_pipeline.
  cbv [bind print ret lift call artifacts_tokenizer]. cbn [fst snd].
  rewrite Htok, for_list_vocab, (lookup_events_Ok _ _ _ Hids).
  apply lookup_all_Ok in Hids. rewrite Hids.
  unfold torch_tensor. rewrite Hbig. simpl. rewrite app_nil_r. eauto.
Qed.

(** X9. A session that declares no input: [get_inputs()[0]] raises
    [IndexError], which leaves [classify_categories]; the session's outputs
    and providers are not asked and the session is not run. *)
Theorem no_declared_input device sentence self toks ids :
  tokenizer (artifacts self) sentence = Ok toks →
  Forall2 (λ tok i, vocab (artifacts self) tok = Ok i) toks ids →
  forallb in_int64 ids = true →
  get_inputs (model (artifacts self)) = Ok [] →
  ∃ e, classify_categories device sentence self
       = (EPrint SetupPipeline :: ETokenizer sentence (Ok toks)
            :: zip_with (λ tok i, EVocab tok (Ok i)) toks ids ++ [EGetInputs (Ok [])],
          self, Raise e)
       ∧ exn_class e = IndexError.
Proof.
  intros Htok Hids Hint Hin.
  unfold classify_categories, get_pipeline.
  cbv [bind print ret lift call artifacts_tokenizer]. cbn [fst snd].
  rewrite Htok, for_list_vocab, (lookup_events_Ok _ _ _ Hids).
  apply lookup_all_Ok in Hids. rewrite Hids.
  destruct (torch_tensor ids) as [tensor|e] eqn:Ht.
  2: { unfold torch_tensor in Ht. rewrite Hint in Ht. discriminate. }
  apply (torch_tensor_to_numpy device) in Ht as [_ ->].
  rewrite Hin. simpl. eauto.
Qed.

End Edges.

(** X13. [to_numpy] extends the plain conversion: where [numpy()] succeeds
    on a tensor, [to_numpy] returns the same array; where [numpy()] raises
    on a tensor of a dtype that numpy has (the tensor requires gradients or
    is not in host memory), [to_numpy] still returns the tensor's values;
    and on a tensor of a dtype that numpy does not have, [to_numpy] raises
    a [TypeError] as well. *)
Theorem to_numpy_extends_numpy {A} (t : Tensor A) :
  match numpy t with
  | Ok a => to_numpy t = Ok a
  | Raise e =>
      if numpy_dtype (t_dtype t) then
        to_numpy t = Ok (mkArray (t_dtype t) (t_shape t) (t_data t))
        ∧ (requires_grad t = true ∨ t_device t ≠ cpu_device)
      else ∃ e', to_numpy t = Raise e' ∧ exn_class e' = TypeError
  end.
Proof.
  destruct (numpy_dtype (t_dtype t)) eqn:Hd.
  - rewrite (to_numpy_Ok t Hd). unfold numpy. rewrite Hd.
    destruct (requires_grad t) eqn:Hg; [auto|].
    case_bool_decide as Hdev; auto.
  - rewrite (to_numpy_unsupported t Hd). unfold numpy. rewrite Hd.
    destruct (requires_grad t); [eauto|].
    case_bool_decide; eauto.
Qed.

(** ** Two runs against the same answers *)

Section Replay.
Context {F : Type} `{Float F}.
Implicit Types (self : OnnxService F).

Lemma run_of_read_only {A} (m : M F A) self :
  read_only m → m self = (trace (m self), self, outcome (m self)).
Proof.
  intros Hm. specialize (Hm self). unfold final, trace, outcome in *.
  destruct (m self) as [[t self'] r]. simpl in *. now subst.
Qed.

Lemma replays_ret {A} (x : A) : replays (F:=F) (ret x).
Proof. now intros self1 self2 _ _. Qed.

Lemma replays_raise {A} e : replays (F:=F) (raise (A:=A) e).
Proof. now intros self1 self2 _ _. Qed.

Lemma replays_lift {A} (r : result A) : replays (F:=F) (lift r).
Proof. now intros self1 self2 _ _. Qed.

Lemma replays_print o : replays (F:=F) (print o).
Proof. now intros self1 self2 _ _. Qed.

Lemma replays_news_label n : replays (F:=F) (getattr news_label n).
Proof.
  intros self1 self2 Hlabels _. unfold getattr, trace, outcome. simpl.
  now rewrite Hlabels.
Qed.

Lemma replays_call {A} (f : Artifacts F → result A) (ev : result A → event F) :
  (∀ a r, answers a (ev r) → f a = r) → replays (call f ev).
Proof.
  intros Hev self1 self2 _ Hag. unfold call, trace, outcome in *. simpl in *.
  assert (Hsame : f (artifacts self2) = f (artifacts self1)).
  { apply Hev, Hag. now apply list_elem_of_singleton. }
  now rewrite Hsame.
Qed.

Lemma replays_bind {A B} (m : M F A) (f : A → M F B) :
  read_only m → replays m →
  (∀ self x, outcome (m self) = Ok x → replays (f x)) →
  replays (bind m f).
Proof.
  intros Hro Hm Hf self1 self2 Hlabels Hag.
  unfold bind in *.
  rewrite (run_of_read_only m self1 Hro) in Hag |- *.
  rewrite (run_of_read_only m self2 Hro).
  destruct (outcome (m self1)) as [x|e] eqn:Hout.
  - destruct (f x self1) as [[t1 s1] r1] eqn:Hf1.
    destruct (Hm self1 self2 Hlabels) as [Ht Ho].
    { intros ev Hin. apply Hag. unfold trace at 1. simpl.
      apply elem_of_app. now left. }
    rewrite Ht, Ho, Hout.
    destruct (Hf self1 x Hout self1 self2 Hlabels) as [Ht' Ho'].
    { intros ev Hin. apply Hag. unfold trace at 1. simpl.
      apply elem_of_app. right. now rewrite Hf1 in Hin. }
    rewrite Hf1 in Ht', Ho'.
    destruct (f x self2) as [[t2 s2] r2]. unfold trace, outcome in *. simpl in *.
    now subst.
  - destruct (Hm self1 self2 Hlabels) as [Ht Ho].
    { intros ev Hin. now apply Hag. }
    rewrite Ht, Ho, Hout. now split.
Qed.

Lemma replays_try_except {A} (body : M F A) classes (handler : exn → M F A) :
  read_only body → replays body → (∀ e, replays (handler e)) →
  replays (try_except body classes handler).
Proof.
  intros Hro Hb Hh self1 self2 Hlabels Hag.
  unfold try_except in *.
  rewrite (run_of_read_only body self1 Hro) in Hag |- *.
  rewrite (run_of_read_only body self2 Hro).
  destruct (outcome (body self1)) as [x|e] eqn:Hout.
  - destruct (Hb self1 self2 Hlabels) as [Ht Ho]; [exact Hag|].
    rewrite Ht, Ho, Hout. now split.
  - destruct (isinstance e classes) eqn:Hinst.
    + destruct (handler e self1) as [[t1 s1] r1] eqn:Hh1.
      destruct (Hb self1 self2 Hlabels) as [Ht Ho].
      { intros ev Hin. apply Hag. unfold trace at 1. simpl.
        apply elem_of_app. now left. }
      rewrite Ht, Ho, Hout, Hinst.
      destruct (Hh e self1 self2 Hlabels) as [Ht' Ho'].
      { intros ev Hin. apply Hag. unfold trace at 1. simpl.
        apply elem_of_app. right. now rewrite Hh1 in Hin. }
      rewrite Hh1 in Ht', Ho'.
      destruct (handler e self2) as [[t2 s2] r2]. unfold trace, outcome in *. simpl in *.
      now subst.
    + destruct (Hb self1 self2 Hlabels) as [Ht Ho]; [exact Hag|].
      rewrite Ht, Ho, Hout, Hinst. now split.
Qed.

Lemma replays_for_list {A B} (f : A → M F B) l :
  (∀ x, read_only (f x)) → (∀ x, replays (f x)) → replays (for_list f l).
Proof.
  intros Hro Hf. induction l as [|x l IH]; simpl.
  - apply replays_ret.
  - apply replays_bind; [apply Hro|apply Hf|]. intros _ y _.
    apply replays_bind; [now apply read_only_for_list|apply IH|].
    intros _ ys _. apply replays_ret.
Qed.

Lemma replays_text_pipeline x :
  replays (F:=F)
    (bind (artifacts_tokenizer x) (λ tokens, for_list artifacts_vocab tokens)).
Proof.
  apply replays_bind.
  - apply read_only_call.
  - apply replays_call. now intros a r.
  - intros _ tokens _. apply replays_for_list.
    + intros tok. apply read_only_call.
    + intros tok. apply replays_call. now intros a r.
Qed.

Lemma replays_classify_categories device sentence :
  replays (F:=F) (classify_categories device sentence).
Proof.
  unfold classify_categories.
  apply replays_bind; [apply read_only_get_pipeline| |].
  { unfold get_pipeline. apply replays_bind;
      [apply read_only_print|apply replays_print|].
    intros _ _ _. apply replays_ret. }
  intros self p [= <-]. simpl.
  apply replays_bind; [apply read_only_text_pipeline|apply replays_text_pipeline|].
  intros _ ids _.
  apply replays_bind; [apply read_only_lift|apply replays_lift|]. intros _ tensor _.
  apply replays_bind; [apply read_only_lift|apply replays_lift|]. intros _ text _.
  apply replays_bind; [apply read_only_call|apply replays_call; now intros a r|].
  intros _ inputs _.
  apply replays_bind; [apply read_only_lift|apply replays_lift|]. intros _ input0 _.
  apply replays_bind; [apply read_only_call|apply replays_call; now intros a r|].
  intros _ outputs _.
  apply replays_bind; [apply read_only_lift|apply replays_lift|]. intros _ output0 _.
  apply replays_bind; [apply read_only_call|apply replays_call; now intros a r|].
  intros _ providers _.
  apply replays_bind; [apply read_only_print|apply replays_print|]. intros _ _ _.
  apply replays_try_except.
  - apply read_only_bind; [apply read_only_call|]. intros outs.
    apply read_only_bind; [apply read_only_lift|]. intros r.
    apply read_only_bind; [apply read_only_lift|]. intros am.
    apply read_only_bind; [apply read_only_lift|]. intros i. apply read_only_ret.
  - apply replays_bind; [apply read_only_call|apply replays_call; now intros a r|].
    intros _ outs _.
    apply replays_bind; [apply read_only_lift|apply replays_lift|]. intros _ r _.
    apply replays_bind; [apply read_only_lift|apply replays_lift|]. intros _ am _.
    apply replays_bind; [apply read_only_lift|apply replays_lift|]. intros _ i _.
    apply replays_ret.
  - intros e. rewrite lookup_singleton_eq.
    apply replays_bind; [apply read_only_print|apply replays_print|].
    intros _ _ _. apply replays_ret.
Qed.

Lemma replays_predict device parsed_json :
  replays (F:=F) (predict device parsed_json).
Proof.
  unfold predict.
  apply replays_bind; [apply read_only_lift|apply replays_lift|]. intros _ sentence _.
  apply replays_bind; [apply read_only_getattr|apply replays_news_label|].
  intros _ labels _.
  apply replays_bind;
    [apply read_only_classify_categories|apply replays_classify_categories|].
  intros _ category _.
  apply replays_bind; [apply read_only_lift|apply replays_lift|]. intros _ label _.
  apply replays_ret.
Qed.

(** *** The trace records what the artifacts answered *)

Lemma records_pure {A} (m : M F A) :
  (∀ self, trace (m self) = []) → records_answers m.
Proof. intros Hm self ev Hin. rewrite Hm in Hin. now apply elem_of_nil in Hin. Qed.

Lemma records_print o : records_answers (F:=F) (print o).
Proof.
  intros self ev Hin. unfold print, trace in Hin. simpl in Hin.
  apply list_elem_of_singleton in Hin. now subst.
Qed.

Lemma records_call {A} (f : Artifacts F → result A) (ev : result A → event F) :
  (∀ a, answers a (ev (f a))) → records_answers (call f ev).
Proof.
  intros Hev self e Hin. unfold call, trace in Hin. simpl in Hin.
  apply list_elem_of_singleton in Hin. subst. apply Hev.
Qed.

Lemma records_bind {A B} (m : M F A) (f : A → M F B) :
  read_only m → records_answers m →
  (∀ self x, outcome (m self) = Ok x → records_answers (f x)) →
  records_answers (bind m f).
Proof.
  intros Hro Hm Hf self ev. unfold bind.
  rewrite (run_of_read_only m self Hro).
  destruct (outcome (m self)) as [x|e] eqn:Hout.
  - specialize (Hf self x Hout self).
    destruct (f x self) as [[t s] r]. unfold trace at 1. simpl.
    intros [Hin|Hin]%elem_of_app; [now apply Hm|now apply Hf].
  - unfold trace at 1. simpl. apply Hm.
Qed.

Lemma records_try_except {A} (body : M F A) classes (handler : exn → M F A) :
  read_only body → records_answers body → (∀ e, records_answers (handler e)) →
  records_answers (try_except body classes handler).
Proof.
  intros Hro Hb Hh self ev. unfold try_except.
  rewrite (run_of_read_only body self Hro).
  destruct (outcome (body self)) as [x|e] eqn:Hout.
  - unfold trace at 1. simpl. apply Hb.
  - destruct (isinstance e classes).
    + specialize (Hh e self).
      destruct (handler e self) as [[t s] r]. unfold trace at 1. simpl.
      intros [Hin|Hin]%elem_of_app; [now apply Hb|now apply Hh].
    + unfold trace at 1. simpl. apply Hb.
Qed.

Lemma records_for_list {A B} (f : A → M F B) l :
  (∀ x, read_only (f x)) → (∀ x, records_answers (f x)) →
  records_answers (for_list f l).
Proof.
  intros Hro Hf. induction l as [|x l IH]; simpl.
  - now apply records_pure.
  - apply records_bind; [apply Hro|apply Hf|]. intros _ y _.
    apply records_bind; [now apply read_only_for_list|apply IH|].
    intros _ ys _. now apply records_pure.
Qed.

Lemma records_classify_categories device sentence :
  records_answers (F:=F) (classify_categories device sentence).
Proof.
  unfold classify_categories.
  apply records_bind; [apply read_only_get_pipeline| |].
  { unfold get_pipeline. apply records_bind;
      [apply read_only_print|apply records_print|].
    intros _ _ _. now apply records_pure. }
  intros self p [= <-]. simpl.
  apply records_bind; [apply read_only_text_pipeline| |].
  { apply records_bind; [apply read_only_call|now apply records_call|].
    intros _ tokens _. apply records_for_list.
    - intros tok. apply read_only_call.
    - intros tok. now apply records_call. }
  intros _ ids _.
  apply records_bind; [apply read_only_lift|now apply records_pure|]. intros _ tensor _.
  apply records_bind; [apply read_only_lift|now apply records_pure|]. intros _ text _.
  apply records_bind; [apply read_only_call|now apply records_call|]. intros _ inputs _.
  apply records_bind; [apply read_only_lift|now apply records_pure|]. intros _ input0 _.
  apply records_bind; [apply read_only_call|now apply records_call|]. intros _ outputs _.
  apply records_bind; [apply read_only_lift|now apply records_pure|]. intros _ output0 _.
  apply records_bind; [apply read_only_call|now apply records_call|].
  intros _ providers _.
  apply records_bind; [apply read_only_print|apply records_print|]. intros _ _ _.
  apply records_try_except.
  - apply read_only_bind; [apply read_only_call|]. intros outs.
    apply read_only_bind; [apply read_only_lift|]. intros r.
    apply read_only_bind; [apply read_only_lift|]. intros am.
    apply read_only_bind; [apply read_only_lift|]. intros i. apply read_only_ret.
  - apply records_bind; [apply read_only_call|now apply records_call|].
    intros _ outs _.
    apply records_bind; [apply read_only_lift|now apply records_pure|]. intros _ r _.
    apply records_bind; [apply read_only_lift|now apply records_pure|]. intros _ am _.
    apply records_bind; [apply read_only_lift|now apply records_pure|]. intros _ i _.
    now apply records_pure.
  - intros e. rewrite lookup_singleton_eq.
    apply records_bind; [apply read_only_print|apply records_print|].
    intros _ _ _. now apply records_pure.
Qed.

Lemma records_predict device parsed_json :
  records_answers (F:=F) (predict device parsed_json).
Proof.
  unfold predict.
  apply records_bind; [apply read_only_lift|now apply records_pure|].
  intros _ sentence _.
  apply records_bind; [apply read_only_getattr|now apply records_pure|].
  intros _ labels _.
  apply records_bind;
    [apply read_only_classify_categories|apply records_classify_categories|].
  intros _ category _.
  apply records_bind; [apply read_only_lift|now apply records_pure|]. intros _ label _.
  now apply records_pure.
Qed.

(** C10. [predict] depends on the artifacts only through the answers to the
    calls it makes, and on the service only through its label table.  Take
    two runs of [predict] on the same parsed body, on service objects with
    the same label table, the artifacts being held fixed in this sense: every
    call the first run made on them (tokenizer, vocabulary look-ups, session
    queries, [run]) is answered in the second run as it was in the first.
    Then the second run makes the same calls with the same arguments, prints
    the same lines and ends the same way: the same response or the same
    exception.  The condition holds in particular for a second run on the
    same object, whose trace records the answers of its own artifacts and
    which the first run left unchanged. *)
Theorem predict_deterministic device parsed_json self1 self2 :
  news_label self1 = news_label self2 →
  (∀ ev, ev ∈ trace (predict device parsed_json self1) → answers (artifacts self2) ev) →
  outcome (predict device parsed_json self2) = outcome (predict device parsed_json self1)
  ∧ trace (predict device parsed_json self2) = trace (predict device parsed_json self1)
  ∧ final (predict device parsed_json self1) = self1
  ∧ final (predict device parsed_json self2) = self2
  ∧ (∀ ev, ev ∈ trace (predict device parsed_json self1) →
           answers (artifacts self1) ev).
Proof.
  intros Hlabels Hag.
  destruct (replays_predict device parsed_json self1 self2 Hlabels Hag) as [Ht Ho].
  split; [exact Ho|]. split; [exact Ht|].
  split; [apply read_only_predict|]. split; [apply read_only_predict|].
  apply records_predict.
Qed.

End Replay.

(** ** The helper functions of the notebook *)

Section TrainingProofs.
Import Training.
Context {V : Type} (Vocab : gmap string nat → nat → V) (len : V → nat).

Lemma Counter_update_lookup counter iterable token :
  Counter_update counter iterable !! token
  = match counter !! token, occurrences token iterable with
    | Some k, n => Some (k + n)%nat
    | None, O => None
    | None, n => Some n
    end.
Proof.
  unfold Counter_update, occurrences.
  revert counter. induction iterable as [|x l IH]; intros counter; simpl.
  - destruct (counter !! token); [f_equal; lia|reflexivity].
  - rewrite IH. destruct (decide (x = token)) as [->|Hne].
    + rewrite lookup_insert_eq, filter_cons_True by done. simpl.
      destruct (counter !! token); simpl; f_equal; lia.
    + rewrite lookup_insert_ne, filter_cons_False by done. reflexivity.
Qed.

Lemma Counter_update_app counter l1 l2 :
  Counter_update counter (l1 ++ l2) = Counter_update (Counter_update counter l1) l2.
Proof. apply foldl_app. Qed.

Lemma count_lines_Ok tokenizer counter train_ token_lists :
  Forall2 (λ example tokens, tokenizer (JStr example.2) = Ok tokens) train_ token_lists →
  count_lines tokenizer counter train_ = Ok (Counter_update counter (concat token_lists)).
Proof.
  intros Hall. revert counter.
  induction Hall as [|[label line] tokens train_ token_lists Htok _ IH]; intros counter.
  - reflexivity.
  - simpl in *. rewrite Htok. simpl. now rewrite IH, Counter_update_app.
Qed.

(** X14. When the tokenizer returns on every line of the training split,
    [get_tokenizer_vocab] prints its one line and returns the tokenizer
    together with the vocabulary built, with [min_freq=1], from a counter
    that binds every token to the number of times it occurs in the lines,
    all lines taken together; a token that occurs in no line is no key of
    the counter, so every count is at least one. *)
Theorem vocabulary_counts_tokens get_tokenizer dataset tokenizer_fn root_data_dir
    token_lists :
  Forall2 (λ example tokens, get_tokenizer tokenizer_fn (JStr example.2) = Ok tokens)
          (dataset root_data_dir "train") token_lists →
  ∃ counter,
    get_tokenizer_vocab Vocab get_tokenizer dataset tokenizer_fn root_data_dir
    = (["Getting tokenizer and vocab..."],
       Ok (get_tokenizer tokenizer_fn, Vocab counter 1%nat))
    ∧ (∀ token n, counter !! token = Some n
                  ↔ n = occurrences token (concat token_lists) ∧ (1 ≤ n)%nat)
    ∧ (∀ token, counter !! token = None ↔ token ∉ concat token_lists).
Proof.
  intros Hall. exists (Counter_update ∅ (concat token_lists)).
  split.
  - unfold get_tokenizer_vocab. now rewrite (count_lines_Ok _ _ _ _ Hall).
  - assert (Hocc : ∀ token, occurrences token (concat token_lists) = 0%nat
                            ↔ token ∉ concat token_lists).
    { intros token. unfold occurrences. rewrite length_zero_iff_nil.
      split.
      - intros Hnil Hin.
        assert (Hf : token ∈ filter (λ x, x = token) (concat token_lists))
          by now apply list_elem_of_filter.
        rewrite Hnil in Hf. set_solver.
      - intros Hnot. apply elem_of_nil_inv. intros x [-> Hx]%list_elem_of_filter.
        done. }
    split.
    + intros token n. rewrite Counter_update_lookup, lookup_empty.
      destruct (occurrences token (concat token_lists)) as [|k] eqn:Hk.
      * split; [discriminate|]. intros [-> Hn]. lia.
      * split; [intros [= <-]; split; [reflexivity|lia]|]. now intros [-> _].
    + intros token. rewrite Counter_update_lookup, lookup_empty, <- Hocc.
      destruct (occurrences token (concat token_lists)); [done|].
      split; [discriminate|lia].
Qed.

Lemma occurrences_Permutation token l1 l2 :
  l1 ≡ₚ l2 → occurrences token l1 = occurrences token l2.
Proof. intros Hp. unfold occurrences. now rewrite Hp. Qed.

Lemma count_lines_total (tokenizer : json → result (list string)) counter train_ :
  Forall (λ line, ∃ tokens, tokenizer (JStr line) = Ok tokens) (map snd train_) →
  count_lines tokenizer counter train_
  = Ok (Counter_update counter
          (flat_map (λ line, if tokenizer (JStr line) is Ok tokens then tokens else [])
                    (map snd train_))).
Proof.
  intros Hall. rewrite flat_map_concat_map. apply count_lines_Ok.
  induction train_ as [|[label line] train_ IH]; [constructor|].
  simpl in *. apply Forall_cons in Hall as [[tokens Htok] Hall].
  constructor; [|now apply IH]. simpl. now rewrite Htok.
Qed.

(** X15. The vocabulary depends on the lines of the training split only,
    and not on their order: two datasets whose lines are the same up to
    order, with any labels, give the same result of [get_tokenizer_vocab]
    (when the tokenizer returns on every line). *)
Theorem vocabulary_ignores_order_and_labels get_tokenizer dataset1 dataset2
    tokenizer_fn root_data_dir :
  map snd (dataset1 root_data_dir "train") ≡ₚ map snd (dataset2 root_data_dir "train") →
  Forall (λ line, ∃ tokens, get_tokenizer tokenizer_fn (JStr line) = Ok tokens)
         (map snd (dataset1 root_data_dir "train")) →
  get_tokenizer_vocab Vocab get_tokenizer dataset1 tokenizer_fn root_data_dir
  = get_tokenizer_vocab Vocab get_tokenizer dataset2 tokenizer_fn root_data_dir.
Proof.
  intros Hperm Hall1.
  assert (Hall2 : Forall (λ line, ∃ tokens, get_tokenizer tokenizer_fn (JStr line) = Ok tokens)
                         (map snd (dataset2 root_data_dir "train")))
    by now rewrite <- Hperm.
  unfold get_tokenizer_vocab.
  rewrite (count_lines_total _ _ _ Hall1), (count_lines_total _ _ _ Hall2). simpl.
  do 2 f_equal. f_equal. f_equal. apply map_eq. intros token.
  rewrite !Counter_update_lookup, lookup_empty.
  rewrite (occurrences_Permutation token _ _ (Permutation_flat_map _ Hperm)).
  reflexivity.
Qed.

Lemma length_remove_dups_le (l : list Z) : (length (remove_dups l) ≤ length l)%nat.
Proof.
  induction l as [|x l IH]; simpl; [lia|].
  destruct (decide_rel _ x l); simpl; lia.
Qed.

Lemma size_label_set (labels : list Z) :
  size (list_to_set labels : gset Z) = length (remove_dups labels).
Proof.
  rewrite <- (size_list_to_set (C:=gset Z) (remove_dups labels))
    by apply NoDup_remove_dups.
  f_equal. apply set_eq. intros x.
  now rewrite !elem_of_list_to_set, elem_of_remove_dups.
Qed.

(** X16. [get_model_params] prints its one line and returns the length of
    the vocabulary, the embedding size 64 and the number of distinct labels
    of the training split: for any duplicate-free list of the labels that
    occur, [num_class] is its length.  [num_class] is at most the number of
    examples, and is zero only for an empty split. *)
Theorem num_class_counts_distinct_labels AG_NEWS vocab distinct :
  NoDup distinct →
  (∀ label, label ∈ distinct ↔ label ∈ map fst (AG_NEWS "dataset" "train")) →
  ∃ num_class,
    get_model_params len AG_NEWS vocab
    = (["Setup model params..."], (len vocab, 64%nat, num_class))
    ∧ num_class = length distinct
    ∧ (num_class ≤ length (AG_NEWS "dataset" "train"))%nat
    ∧ (num_class = 0%nat ↔ AG_NEWS "dataset" "train" = []).
Proof.
  intros Hnodup Hsame. eexists. split; [reflexivity|].
  assert (Hset : (list_to_set (map fst (AG_NEWS "dataset" "train")) : gset Z)
                 = list_to_set distinct).
  { apply set_eq. intros x. rewrite !elem_of_list_to_set. symmetry. apply Hsame. }
  split; [|split].
  - rewrite Hset. now apply size_list_to_set.
  - rewrite size_label_set.
    etransitivity; [apply length_remove_dups_le|]. now rewrite length_map.
  - split.
    + intros Hzero%size_empty_inv.
      destruct (AG_NEWS "dataset" "train") as [|[label line] rest]; [reflexivity|].
      exfalso. apply (not_elem_of_empty (C:=gset Z) label). rewrite <- Hzero.
      apply elem_of_list_to_set. simpl. left.
    + intros ->. reflexivity.
Qed.

(** X17. When the labels that occur in the training split are exactly the
    keys of the service's label table, [get_model_params] returns four
    classes, as many as the table has entries; a graph with that many
    outputs can only yield categories that are keys of the table. *)
Theorem num_class_matches_label_table AG_NEWS vocab :
  (∀ label, label ∈ map fst (AG_NEWS "dataset" "train")
            ↔ Some label ∈ dom label_table) →
  (get_model_params len AG_NEWS vocab).2.2 = 4%nat
  ∧ (get_model_params len AG_NEWS vocab).2.2 = size label_table
  ∧ ∀ pos : nat, (pos < (get_model_params len AG_NEWS vocab).2.2)%nat →
                 Some (Z.of_nat pos + 1) ∈ dom label_table.
Proof.
  intros Hlabels.
  assert (Hdom : ∀ label, Some label ∈ dom label_table ↔ label ∈ [1; 2; 3; 4]).
  { intros label. unfold label_table.
    rewrite !dom_insert_L, dom_singleton_L.
    rewrite !elem_of_union, !elem_of_singleton, !elem_of_cons, elem_of_nil.
    split.
    - intros [[= ->]|[[= ->]|[[= ->]|[= ->]]]]; tauto.
    - intros [->|[->|[->|[->|[]]]]]; tauto. }
  assert (Hfour : (get_model_params len AG_NEWS vocab).2.2 = 4%nat).
  { simpl.
    replace (list_to_set (map fst (AG_NEWS "dataset" "train")) : gset Z)
      with (list_to_set [1; 2; 3; 4] : gset Z).
    - apply (size_list_to_set (C:=gset Z) [1; 2; 3; 4]).
      apply (bool_decide_unpack _). vm_compute. exact I.
    - apply set_eq. intros x.
      now rewrite !elem_of_list_to_set, Hlabels, Hdom. }
  split; [exact Hfour|]. split.
  - rewrite Hfour. unfold label_table.
    rewrite !map_size_insert_None, map_size_singleton; [reflexivity|..];
      now simplify_map_eq.
  - rewrite Hfour. intros pos Hpos. apply Hdom.
    destruct pos as [|[|[|[|pos]]]]; [simpl; rewrite !elem_of_cons; lia..|lia].
Qed.

End TrainingProofs.

(** ** The dummy input of the export *)

Lemma long_of_unit_interval (x : Q) :
  (0 <= x)%Q → (x < 1)%Q → Training.long x = 0.
Proof.
  destruct x as [n d]. unfold Training.long, Qle, Qlt. simpl.
  intros Hn Hd. apply Z.quot_small. lia.
Qed.

(** X18. Whatever [torch.rand] draws (values of the interval from 0 to 1, 1
    excluded), the dummy input of the export is the same tensor: int64, of
    shape (vocab_size,), on the device, and all zeros, because [long()]
    drops the fractional part. *)
Theorem dummy_input_is_zeros source vocab_size device :
  (∀ i, (0 <= source i)%Q ∧ (source i < 1)%Q) →
  Training.dummy_input source vocab_size device
  = mkTensor int64 [vocab_size] (replicate vocab_size 0) device false.
Proof.
  intros Hunit. unfold Training.dummy_input, Training.Tensor_long, Training.rand, to.
  simpl. f_equal.
  assert (Hzeros : ∀ l, map Training.long (map source l) = replicate (length l) 0).
  { induction l as [|i l IH]; [reflexivity|].
    simpl. rewrite IH. f_equal. apply long_of_unit_interval; apply Hunit. }
  now rewrite Hzeros, length_seq.
Qed.

(** ** The properties at work on the small services *)

Lemma predict_response_is_category_witness :
  news_label Demo.service = Some label_table
  ∧ outcome (predict cpu_device (Demo.request "shares fell") Demo.service)
    = Ok (categories_response "Business")
  ∧ ∃ c, categories_response "Business" = categories_response c ∧ c ∈ categories.
Proof.
  split; [reflexivity|].
  assert (E : outcome (predict cpu_device (Demo.request "shares fell") Demo.service)
              = Ok (categories_response "Business")) by (vm_compute; reflexivity).
  split; [exact E|].
  exact (predict_response_is_category cpu_device (Demo.request "shares fell")
           Demo.service (categories_response "Business") eq_refl E).
Defined.

Lemma predict_rejects_non_dict_witness :
  (∀ m, JArr [JStr "the match won"] ≠ JObj m)
  ∧ ∃ msg, predict cpu_device (JArr [JStr "the match won"]) Demo.service
           = ([], Demo.service, Raise (Exn AttributeError msg)).
Proof.
  split; [intros m; discriminate|].
  apply (predict_rejects_non_dict cpu_device (JArr [JStr "the match won"]) Demo.service).
  intros m. discriminate.
Defined.

Lemma classify_category_in_range_witness :
  outcome (classify_categories cpu_device (JStr "the match won") Demo.service)
  = Ok (Some 2)
  ∧ ∃ outs feed (row : list Z) rest pos,
      ERun outs feed (Ok ([row] :: rest))
        ∈ trace (classify_categories cpu_device (JStr "the match won") Demo.service)
      ∧ argmax_row row = Ok pos
      ∧ 2 = Z.of_nat pos + 1
      ∧ 1 ≤ 2 ≤ Z.of_nat (length row).
Proof.
  assert (E : outcome (classify_categories cpu_device (JStr "the match won") Demo.service)
              = Ok (Some 2)) by (vm_compute; reflexivity).
  split; [exact E|].
  exact (classify_category_in_range cpu_device (JStr "the match won") Demo.service 2 E).
Defined.

Lemma empty_feed_in_trace :
  ERun ["output"] {[ "input" := session_input [] ]}
       (Raise (Exn InvalidArgument "Unexpected input data type"))
    ∈ trace (classify_categories (cuda_device 0) (JStr "") Demo.service).
Proof. apply list_elem_of_In. vm_compute. do 6 right. left. reflexivity. Defined.

Lemma session_feed_witness :
  ERun ["output"] {[ "input" := session_input [] ]}
       (Raise (Exn InvalidArgument "Unexpected input data type"))
    ∈ trace (classify_categories (cuda_device 0) (JStr "") Demo.service)
  ∧ ∃ toks ids inp out inputs outputs,
      tokenizer (artifacts Demo.service) (JStr "") = Ok toks
      ∧ Forall2 (λ tok i, vocab (artifacts Demo.service) tok = Ok i) toks ids
      ∧ get_inputs (model (artifacts Demo.service)) = Ok (inp :: inputs)
      ∧ get_outputs (model (artifacts Demo.service)) = Ok (out :: outputs)
      ∧ ["output"] = [name out]
      ∧ ({[ "input" := session_input [] ]} : gmap string (ndarray Z))
        = {[ name inp := mkArray (if toks is [] then float32 else int64)
                                 [length toks] ids ]}
      ∧ Raise (Exn InvalidArgument "Unexpected input data type")
        = run (model (artifacts Demo.service)) ["output"]
              {[ "input" := session_input [] ]}.
Proof.
  split; [exact empty_feed_in_trace|].
  exact (session_feed (cuda_device 0) (JStr "") Demo.service _ _ _ empty_feed_in_trace).
Defined.

Lemma vocab_error_aborts_witness :
  tokenizer (artifacts Cases.strict) (JStr "the cup won") = Ok (["the"] ++ "cup" :: ["won"])
  ∧ Forall2 (λ tok i, vocab (artifacts Cases.strict) tok = Ok i) ["the"] [2]
  ∧ vocab (artifacts Cases.strict) "cup" = Raise (Exn KeyError "cup")
  ∧ classify_categories cpu_device (JStr "the cup won") Cases.strict
    = ([EPrint SetupPipeline;
        ETokenizer (JStr "the cup won") (Ok ["the"; "cup"; "won"]);
        EVocab "the" (Ok 2); EVocab "cup" (Raise (Exn KeyError "cup"))],
       Cases.strict, Raise (Exn KeyError "cup")).
Proof.
  split; [reflexivity|]. split; [repeat constructor|]. split; [reflexivity|].
  apply (vocab_error_aborts cpu_device (JStr "the cup won") Cases.strict
           ["the"] "cup" ["won"] [2] (Exn KeyError "cup"));
    [reflexivity|repeat constructor|reflexivity].
Defined.

Lemma index_overflow_not_caught_witness :
  tokenizer (artifacts Cases.huge) (JStr "the chip") = Ok ["the"; "chip"]
  ∧ Forall2 (λ tok i, vocab (artifacts Cases.huge) tok = Ok i) ["the"; "chip"] [2; 2 ^ 63]
  ∧ forallb in_int64 [2; 2 ^ 63] = false
  ∧ ∃ e, classify_categories cpu_device (JStr "the chip") Cases.huge
         = ([EPrint SetupPipeline; ETokenizer (JStr "the chip") (Ok ["the"; "chip"]);
             EVocab "the" (Ok 2); EVocab "chip" (Ok (2 ^ 63))],
            Cases.huge, Raise e)
         ∧ isinstance e [RuntimeError; InvalidArgument] = true.
Proof.
  split; [reflexivity|]. split; [repeat constructor|]. split; [reflexivity|].
  apply (index_overflow_not_caught cpu_device (JStr "the chip") Cases.huge
           ["the"; "chip"] [2; 2 ^ 63]);
    [reflexivity|repeat constructor|reflexivity].
Defined.

Lemma no_declared_input_witness :
  tokenizer (artifacts Cases.no_input) (JStr "the match") = Ok ["the"; "match"]
  ∧ Forall2 (λ tok i, vocab (artifacts Cases.no_input) tok = Ok i) ["the"; "match"] [2; 3]
  ∧ forallb in_int64 [2; 3] = true
  ∧ get_inputs (model (artifacts Cases.no_input)) = Ok []
  ∧ ∃ e, classify_categories cpu_device (JStr "the match") Cases.no_input
         = ([EPrint SetupPipeline; ETokenizer (JStr "the match") (Ok ["the"; "match"]);
             EVocab "the" (Ok 2); EVocab "match" (Ok 3); EGetInputs (Ok [])],
            Cases.no_input, Raise e)
         ∧ exn_class e = IndexError.
Proof.
  split; [reflexivity|]. split; [repeat constructor|]. split; [reflexivity|].
  split; [reflexivity|].
  apply (no_declared_input cpu_device (JStr "the match") Cases.no_input
           ["the"; "match"] [2; 3]);
    [reflexivity|repeat constructor|reflexivity|reflexivity].
Defined.

Lemma batch_output_in_trace :
  ERun ["output"] {[ "input" := session_input [2; 3] ]}
       (Ok [[[0; 1; 0; 2]; [3; 0; 0; 0]]])
    ∈ trace (classify_categories cpu_device (JStr "the match") Cases.batch).
Proof. apply list_elem_of_In. vm_compute. do 8 right. left. reflexivity. Defined.

Lemma classify_after_run_returns_witness :
  ERun ["output"] {[ "input" := session_input [2; 3] ]}
       (Ok [[[0; 1; 0; 2]; [3; 0; 0; 0]]])
    ∈ trace (classify_categories cpu_device (JStr "the match") Cases.batch)
  ∧ error_lines (trace (classify_categories cpu_device (JStr "the match") Cases.batch)) = []
  ∧ ∃ e, outcome (classify_categories cpu_device (JStr "the match") Cases.batch) = Raise e
         ∧ exn_class e = ValueError.
Proof.
  split; [exact batch_output_in_trace|].
  destruct (classify_after_run_returns cpu_device (JStr "the match") Cases.batch
              _ _ _ batch_output_in_trace) as (Herr & _ & Hout).
  split; [exact Herr|exact Hout].
Defined.

Lemma wide_classifies :
  Classifies (artifacts Cases.wide) (JStr "the match") ["the"; "match"] [2; 3]
    [mkNodeArg "input" "tensor(int64)"] [mkNodeArg "output" "tensor(float)"]
    (mkNodeArg "input" "tensor(int64)") (mkNodeArg "output" "tensor(float)")
    ["CPUExecutionProvider"] [0; 1; 0; 2; 5] [[[0; 1; 0; 2; 5]]].
Proof.
  split; try (vm_compute; reflexivity).
  repeat constructor.
Defined.

Lemma predict_KeyError_beyond_labels_witness :
  ({[ "text" := JStr "the match" ]} : gmap string json) !! "text" = Some (JStr "the match")
  ∧ news_label Cases.wide = Some label_table
  ∧ argmax_row ([0; 1; 0; 2; 5] : list Z) = Ok 4%nat
  ∧ outcome (classify_categories cpu_device (JStr "the match") Cases.wide) = Ok (Some 5)
  ∧ ∃ msg, outcome (predict cpu_device (Demo.request "the match") Cases.wide)
           = Raise (Exn KeyError msg).
Proof.
  split; [reflexivity|]. split; [reflexivity|]. split; [reflexivity|].
  apply (predict_KeyError_beyond_labels cpu_device {[ "text" := JStr "the match" ]}
           (JStr "the match") Cases.wide ["the"; "match"] [2; 3]
           [mkNodeArg "input" "tensor(int64)"] [mkNodeArg "output" "tensor(float)"]
           (mkNodeArg "input" "tensor(int64)") (mkNodeArg "output" "tensor(float)")
           ["CPUExecutionProvider"] [0; 1; 0; 2; 5] [[[0; 1; 0; 2; 5]]] 4%nat);
    [reflexivity|reflexivity|exact wide_classifies|reflexivity|lia].
Defined.

Lemma label_pipeline_inverts_category_witness :
  argmax_row ([1; 2; 0; 0] : list Z) = Ok 1%nat
  ∧ ∃ (text_pipeline : json → M Z (list Z)) (label_pipeline : Z → Z) category,
      outcome (get_pipeline artifacts_tokenizer artifacts_vocab Demo.service)
      = Ok (text_pipeline, label_pipeline)
      ∧ outcome (classify_categories cpu_device (JStr "the match won") Demo.service)
        = Ok (Some category)
      ∧ label_pipeline category = 1
      ∧ (∀ label, label_pipeline label + 1 = label)
      ∧ (∀ label, Some label ∈ dom label_table → 0 ≤ label_pipeline label ≤ 3).
Proof.
  split; [reflexivity|].
  exact (label_pipeline_inverts_category cpu_device (JStr "the match won") Demo.service
           _ _ _ _ _ _ _ _ _ 1%nat demo_classifies eq_refl).
Defined.

Lemma train_tokenized :
  Forall2 (λ (example : Z * string) tokens, Demo.tokenizer (JStr example.2) = Ok tokens)
    Cases.train
    [["the"; "match"; "won"]; ["shares"; "fell"]; ["chip"]; ["treaty"]; ["the"; "match"]].
Proof. repeat constructor. Defined.

Lemma vocabulary_counts_tokens_witness :
  ∃ counter,
    Training.get_tokenizer_vocab Cases.Vocab (λ _, Demo.tokenizer) (λ _ _, Cases.train)
      "basic_english" "dataset"
    = (["Getting tokenizer and vocab..."], Ok (Demo.tokenizer, Cases.Vocab counter 1%nat))
    ∧ counter !! "the" = Some 2%nat
    ∧ counter !! "won" = Some 1%nat
    ∧ counter !! "cup" = None.
Proof.
  destruct (vocabulary_counts_tokens Cases.Vocab (λ _, Demo.tokenizer) (λ _ _, Cases.train)
              "basic_english" "dataset" _ train_tokenized)
    as (counter & Hrun & Hsome & Hnone).
  exists counter. split; [exact Hrun|].
  split; [apply Hsome; split; [reflexivity|lia]|].
  split; [apply Hsome; split; [reflexivity|lia]|].
  apply Hnone. vm_compute. intros Hin. apply list_elem_of_In in Hin.
  simpl in Hin. intuition discriminate.
Defined.

Lemma vocabulary_ignores_order_and_labels_witness :
  map snd Cases.train ≡ₚ map snd Cases.shuffled
  ∧ Training.get_tokenizer_vocab Cases.Vocab (λ _, Demo.tokenizer) (λ _ _, Cases.train)
      "basic_english" "dataset"
    = Training.get_tokenizer_vocab Cases.Vocab (λ _, Demo.tokenizer) (λ _ _, Cases.shuffled)
        "basic_english" "dataset".
Proof.
  assert (Hperm : map snd Cases.train ≡ₚ map snd Cases.shuffled)
    by (apply (bool_decide_unpack _); vm_compute; exact I).
  split; [exact Hperm|].
  apply (vocabulary_ignores_order_and_labels Cases.Vocab (λ _, Demo.tokenizer)
           (λ _ _, Cases.train) (λ _ _, Cases.shuffled) "basic_english" "dataset");
    [exact Hperm|].
  repeat constructor; eexists; reflexivity.
Defined.

Lemma num_class_counts_distinct_labels_witness :
  NoDup [2; 3; 4; 1]
  ∧ ∃ num_class,
      Training.get_model_params (λ v : gmap string nat * nat, size v.1) (λ _ _, Cases.train)
        (Cases.Vocab ∅ 1%nat)
      = (["Setup model params..."], (0%nat, 64%nat, num_class))
      ∧ num_class = 4%nat
      ∧ (num_class ≤ 5)%nat
      ∧ (num_class = 0%nat ↔ Cases.train = []).
Proof.
  assert (Hnodup : NoDup [2; 3; 4; 1])
    by (apply (bool_decide_unpack _); vm_compute; exact I).
  split; [exact Hnodup|].
  destruct (num_class_counts_distinct_labels (λ v : gmap string nat * nat, size v.1)
              (λ _ _, Cases.train) (Cases.Vocab ∅ 1%nat) [2; 3; 4; 1] Hnodup)
    as (num_class & Hrun & Hlen & Hle & Hzero).
  { intros label. simpl. rewrite !elem_of_cons, !elem_of_nil. tauto. }
  exists num_class. split; [exact Hrun|]. split; [exact Hlen|].
  split; [exact Hle|exact Hzero].
Defined.

Lemma num_class_matches_label_table_witness :
  (∀ label, label ∈ map fst Cases.train ↔ Some label ∈ dom label_table)
  ∧ (Training.get_model_params (λ v : gmap string nat * nat, size v.1)
       (λ _ _, Cases.train) (Cases.Vocab ∅ 1%nat)).2.2 = 4%nat.
Proof.
  assert (Hlabels : ∀ label, label ∈ map fst Cases.train ↔ Some label ∈ dom label_table).
  { intros label. unfold label_table. simpl.
    rewrite !dom_insert_L, dom_singleton_L.
    rewrite !elem_of_union, !elem_of_singleton, !elem_of_cons, elem_of_nil.
    split.
    - intros [->|[->|[->|[->|[->|[]]]]]]; tauto.
    - intros [[= ->]|[[= ->]|[[= ->]|[= ->]]]]; tauto. }
  split; [exact Hlabels|].
  apply (num_class_matches_label_table (λ v : gmap string nat * nat, size v.1)
           (λ _ _, Cases.train) (Cases.Vocab ∅ 1%nat) Hlabels).
Defined.

Lemma dummy_input_is_zeros_witness :
  (∀ i, (0 <= Cases.draws i)%Q ∧ (Cases.draws i < 1)%Q)
  ∧ Training.dummy_input Cases.draws 5 (cuda_device 0)
    = mkTensor int64 [5%nat] [0; 0; 0; 0; 0] (cuda_device 0) false.
Proof.
  assert (Hunit : ∀ i, (0 <= Cases.draws i)%Q ∧ (Cases.draws i < 1)%Q).
  { intros i. unfold Cases.draws, Qle, Qlt. simpl.
    rewrite Zpos_P_of_succ_nat. lia. }
  split; [exact Hunit|].
  exact (dummy_input_is_zeros Cases.draws 5 (cuda_device 0) Hunit).
Defined.

(** C3, on the small service and the empty sentence: the session refuses the
    float32 array with [InvalidArgument], which is caught. *)
Lemma classify_categories_catches_witness :
  tokenizer (artifacts Demo.service) (JStr "") = Ok []
  ∧ run (model (artifacts Demo.service)) ["output"] {[ "input" := session_input [] ]}
    = Raise (Exn InvalidArgument "Unexpected input data type")
  ∧ isinstance (Exn InvalidArgument "Unexpected input data type")
               [RuntimeError; InvalidArgument] = true
  ∧ classify_categories (cuda_device 0) (JStr "") Demo.service
    = ([EPrint SetupPipeline; ETokenizer (JStr "") (Ok []);
        EGetInputs (Ok [mkNodeArg "input" "tensor(int64)"]);
        EGetOutputs (Ok [mkNodeArg "output" "tensor(float)"]);
        EGetProviders (Ok ["CUDAExecutionProvider"; "CPUExecutionProvider"]);
        EPrint (Providers ["CUDAExecutionProvider"; "CPUExecutionProvider"]);
        ERun ["output"] {[ "input" := session_input [] ]}
             (Raise (Exn InvalidArgument "Unexpected input data type"));
        EPrint (ErrorWithShape [0%nat]
                  (Exn InvalidArgument "Unexpected input data type"))],
       Demo.service, Ok None).
Proof.
  split; [reflexivity|]. split; [reflexivity|]. split; [reflexivity|].
  pose proof (classify_categories_catches (cuda_device 0) (JStr "") Demo.service
                [] [] [mkNodeArg "input" "tensor(int64)"]
                [mkNodeArg "output" "tensor(float)"]
                (mkNodeArg "input" "tensor(int64)") (mkNodeArg "output" "tensor(float)")
                ["CUDAExecutionProvider"; "CPUExecutionProvider"]
                eq_refl (List.Forall2_nil _) eq_refl eq_refl eq_refl eq_refl eq_refl eq_refl)
    as Hc.
  cbv zeta in Hc.
  destruct Hc as (Hcaught & _).
  apply (Hcaught (Exn InvalidArgument "Unexpected input data type")); reflexivity.
Defined.

(** C4, on the small service: three tokens, three indices. *)
Lemma text_pipeline_maps_tokens_witness :
  tokenizer (artifacts Demo.service) (JStr "the match won") = Ok ["the"; "match"; "won"]
  ∧ Forall2 (λ tok i, vocab (artifacts Demo.service) tok = Ok i)
            ["the"; "match"; "won"] [2; 3; 7]
  ∧ ∃ (text_pipeline : json → M Z (list Z)) (label_pipeline : Z → Z),
      get_pipeline artifacts_tokenizer artifacts_vocab Demo.service
      = ([EPrint SetupPipeline], Demo.service, Ok (text_pipeline, label_pipeline))
      ∧ text_pipeline (JStr "the match won") Demo.service
        = ([ETokenizer (JStr "the match won") (Ok ["the"; "match"; "won"]);
            EVocab "the" (Ok 2); EVocab "match" (Ok 3); EVocab "won" (Ok 7)],
           Demo.service, Ok [2; 3; 7]).
Proof.
  split; [reflexivity|]. split; [repeat constructor|].
  destruct (text_pipeline_maps_tokens "the match won" Demo.service Demo.service
              ["the"; "match"; "won"] [2; 3; 7])
    as (text_pipeline & label_pipeline & Hbuilt & Hrun & _);
    [reflexivity|repeat constructor|].
  exists text_pipeline, label_pipeline. split; [exact Hbuilt|exact Hrun].
Defined.

(** C5 as amended, on a float32 tensor on a CUDA device that requires
    gradients. *)
Lemma to_numpy_values_witness :
  numpy_dtype (t_dtype (mkTensor float32 [2%nat] [5; 6] (cuda_device 0) true)) = true
  ∧ to_numpy (mkTensor float32 [2%nat] [5; 6] (cuda_device 0) true)
    = Ok (mkArray float32 [2%nat] [5; 6]).
Proof.
  split; [reflexivity|].
  destruct (to_numpy_values (mkTensor float32 [2%nat] [5; 6] (cuda_device 0) true))
    as (Hvalues & _); [reflexivity|].
  exact Hvalues.
Defined.

(** C5 as stated fails: a bfloat16 tensor, in host memory and without
    gradients, has no numpy counterpart, and [to_numpy] raises. *)
Lemma to_numpy_bfloat16_counterexample :
  to_numpy (mkTensor bfloat16 [2%nat] [1; 2] cpu_device false)
  = Raise (Exn TypeError "Got unsupported ScalarType")
  ∧ ¬ ∃ a, to_numpy (mkTensor bfloat16 [2%nat] [1; 2] cpu_device false) = Ok a.
Proof.
  split; [reflexivity|]. intros [a Ha]. discriminate.
Qed.

Lemma strict_answers_demo :
  ∀ ev, ev ∈ trace (predict cpu_device (Demo.request "the match won") Demo.service) →
        answers (artifacts Cases.strict) ev.
Proof.
  intros ev Hin. apply list_elem_of_In in Hin. vm_compute in Hin.
  repeat (destruct Hin as [<-|Hin]; [first [exact I|vm_compute; reflexivity]|]).
  destruct Hin.
Defined.

(** C10, on two services with different vocabularies (an unknown token is
    index 0 for the one, a [KeyError] for the other) that answer alike on
    the tokens of the sentence. *)
Lemma predict_deterministic_witness :
  news_label Demo.service = news_label Cases.strict
  ∧ vocab (artifacts Demo.service) "cup" ≠ vocab (artifacts Cases.strict) "cup"
  ∧ outcome (predict cpu_device (Demo.request "the match won") Cases.strict)
    = outcome (predict cpu_device (Demo.request "the match won") Demo.service)
  ∧ trace (predict cpu_device (Demo.request "the match won") Cases.strict)
    = trace (predict cpu_device (Demo.request "the match won") Demo.service).
Proof.
  split; [reflexivity|]. split; [discriminate|].
  destruct (predict_deterministic cpu_device (Demo.request "the match won")
              Demo.service Cases.strict eq_refl strict_answers_demo)
    as (Hout & Htrace & _).
  split; [exact Hout|exact Htrace].
Defined.
